(** * A shallow embedding of the market-data access layer

    The development follows [src/data_access_layer.py]: a cache directory
    holding one SQLite file per calendar day ([DataAccessLayer]), the
    synchroniser [sincronizar_dados_historicos] which downloads the missing
    days one at a time, and the composer [buscar_dados] which merges a range
    of daily files and resamples the minute bars into a wider timeframe.

    Library calls are modelled by what they do to the data the program
    passes through them:
    - a calendar date is its proleptic Gregorian ordinal, as returned by
      [date.toordinal()]; [timedelta(days=n)] is integer addition and
      [date.weekday()] is [(ordinal + 6) mod 7], as in CPython's datetime;
      the bounds [date.min]/[date.max] are not modelled;
    - the name of a daily file is known through the interface [DateFormat]:
      [strftime] writes it, [strptime] reads it or fails;
    - the data directory is a finite map from file stems to file contents;
      a file is a database, with or without a readable table, or something
      SQLite cannot open;
    - the provider is a function from days to frames, and a run of the
      synchroniser records the days it asked it for;
    - a timestamp is a whole number of minutes since the epoch
      1970-01-01 00:00 (naive wall-clock time), and a timeframe is a
      width in minutes or a string pandas rejects;
    - a price is the exact rational value of the stored REAL; prices are only
      ever compared, never added, so no rounding is involved;
    - a volume is an int64 cell, kept as an integer; the sum of a bin is
      the int64 sum, which wraps around at 64 bits;
    - the table schema of the source gives a row its six columns; rows with
      NULL cells are outside the model. *)

From Stdlib Require Import ZArith QArith Lia List String Ascii.
From Stdlib Require Import DecimalString DecimalZ.
From stdpp Require Import gmap strings list sorting.

Local Open Scope Z_scope.

(** ** Dates *)

Module Calendar.

Definition date := Z.

(** [date.weekday()]: Monday is 0 and Sunday is 6. *)
Definition weekday (d : date) : Z := (d + 6) mod 7.

(** [date(1970, 1, 1).toordinal()]. *)
Definition epoch_ordinal : Z := 719163.

(** Minutes in a day: the unit of timestamps is the minute. *)
Definition day_minutes : Z := 1440.

(** [Timestamp.date()] of a naive timestamp, and midnight of a date. *)
Definition date_of_timestamp (t : Z) : date := t / day_minutes + epoch_ordinal.
Definition midnight (d : date) : Z := (d - epoch_ordinal) * day_minutes.

(** [Timestamp.normalize()]: midnight of the timestamp's own day. *)
Definition normalize (t : Z) : Z := t - t mod day_minutes.

End Calendar.
Export Calendar.

(** The two directions of ['%Y-%m-%d'] formatting.  [strptime] returns
    [None] where Python raises [ValueError].  The only fact the program
    relies on is that the name it writes for a day reads back as that day. *)
Class DateFormat := {
  strftime : date → string;
  strptime : string → option date;
  strptime_strftime : ∀ d, strptime (strftime d) = Some d
}.

(** ** The calendar of Python and ISO names

    One way to name the days, used to run the program on real dates: the
    proleptic Gregorian calendar as CPython's datetime computes it, and the
    ten characters [YYYY-MM-DD].  The reading is strict (four, two and two
    digits); [datetime.strptime] also accepts months and days of one
    digit.  The properties proved of the program hold for every
    [DateFormat]. *)

Module Gregorian.

(** [_DAYS_IN_MONTH] and [_DAYS_BEFORE_MONTH] of CPython's datetime. *)
Definition DAYS_IN_MONTH (month : Z) : Z :=
  match month with
  | 1 => 31 | 2 => 28 | 3 => 31 | 4 => 30 | 5 => 31 | 6 => 30
  | 7 => 31 | 8 => 31 | 9 => 30 | 10 => 31 | 11 => 30 | 12 => 31
  | _ => -1
  end.
Definition DAYS_BEFORE_MONTH (month : Z) : Z :=
  match month with
  | 1 => 0 | 2 => 31 | 3 => 59 | 4 => 90 | 5 => 120 | 6 => 151
  | 7 => 181 | 8 => 212 | 9 => 243 | 10 => 273 | 11 => 304 | 12 => 334
  | _ => -1
  end.

Definition is_leap (year : Z) : bool :=
  (year mod 4 =? 0) && (negb (year mod 100 =? 0) || (year mod 400 =? 0)).

Definition days_before_year (year : Z) : Z :=
  let y := year - 1 in y * 365 + y / 4 - y / 100 + y / 400.

Definition days_in_month (year month : Z) : Z :=
  if (month =? 2) && is_leap year then 29 else DAYS_IN_MONTH month.

Definition days_before_month (year month : Z) : Z :=
  DAYS_BEFORE_MONTH month + (if (2 <? month) && is_leap year then 1 else 0).

(** [_ymd2ord]. *)
Definition ymd2ord (year month day : Z) : Z :=
  days_before_year year + days_before_month year month + day.

(** The month and the day of the month of the [n]-th day of a year,
    counted from 0: the last part of [_ord2ymd]. *)
Definition month_day (leapyear : bool) (n : Z) : Z * Z :=
  let month := Z.shiftr (n + 50) 5 in
  let preceding :=
    DAYS_BEFORE_MONTH month + (if (2 <? month) && leapyear then 1 else 0) in
  if n <? preceding then
    let month := month - 1 in
    let preceding :=
      preceding
      - (DAYS_IN_MONTH month + (if (month =? 2) && leapyear then 1 else 0)) in
    (month, n - preceding + 1)
  else (month, n - preceding + 1).

(** [_ord2ymd]. *)
Definition ord2ymd (n : Z) : Z * Z * Z :=
  let n := n - 1 in
  let n400 := n / 146097 in
  let n := n mod 146097 in
  let year := n400 * 400 + 1 in
  let n100 := n / 36524 in
  let n := n mod 36524 in
  let n4 := n / 1461 in
  let n := n mod 1461 in
  let n1 := n / 365 in
  let n := n mod 365 in
  let year := year + n100 * 100 + n4 * 4 + n1 in
  if (n1 =? 4) || (n100 =? 4) then (year - 1, 12, 31)
  else
    let leapyear := (n1 =? 3) && (negb (n4 =? 24) || (n100 =? 3)) in
    let '(month, day) := month_day leapyear n in
    (year, month, day).

(** [date.min.toordinal()] and [date.max.toordinal()]. *)
Definition min_ordinal : Z := 1.
Definition max_ordinal : Z := 3652059.

(** The checks of [date(year, month, day)]. *)
Definition valid_date (year month day : Z) : bool :=
  (1 <=? year) && (year <=? 9999) && (1 <=? month) && (month <=? 12)
  && (1 <=? day) && (day <=? days_in_month year month).

End Gregorian.
Export Gregorian.

Module IsoFormat.

Definition digit_char (n : Z) : ascii := ascii_of_N (Z.to_N (48 + n)).

Definition digit_value (c : ascii) : option Z :=
  let n := Z.of_N (N_of_ascii c) in
  if (48 <=? n) && (n <=? 57) then Some (n - 48) else None.

(** [YYYY-MM-DD]. *)
Definition format_ymd (ymd : Z * Z * Z) : string :=
  let '(y, m, d) := ymd in
  String (digit_char (y / 1000)) (String (digit_char (y / 100 mod 10))
  (String (digit_char (y / 10 mod 10)) (String (digit_char (y mod 10))
  (String "-" (String (digit_char (m / 10)) (String (digit_char (m mod 10))
  (String "-" (String (digit_char (d / 10)) (String (digit_char (d mod 10))
  EmptyString))))))))).

Definition parse_ymd (s : string) : option (Z * Z * Z) :=
  match s with
  | String y3 (String y2 (String y1 (String y0 (String "-"
    (String m1 (String m0 (String "-" (String d1 (String d0
    EmptyString))))))))) =>
      y3 ← digit_value y3; y2 ← digit_value y2;
      y1 ← digit_value y1; y0 ← digit_value y0;
      m1 ← digit_value m1; m0 ← digit_value m0;
      d1 ← digit_value d1; d0 ← digit_value d0;
      Some (1000 * y3 + 100 * y2 + 10 * y1 + y0, 10 * m1 + m0, 10 * d1 + d0)
  | _ => None
  end.

(** A name that is a date: ten characters that read as a valid date, the
    names [strftime] writes for the years from 1000 on.  Python's
    [strptime] reads a few names more, with a month or a day of one digit
    ([2024-1-8]); the runs below use none of them. *)
Definition parse_date (s : string) : option date :=
  '(y, m, d) ← parse_ymd s;
  if valid_date y m d then Some (ymd2ord y m d) else None.

(** Python has no date outside [date.min, date.max]; so that [date] can
    be the whole of [Z], an ordinal outside that range is named by [#]
    and its decimal writing. *)
Definition iso_strftime (d : date) : string :=
  if (min_ordinal <=? d) && (d <=? max_ordinal) then format_ymd (ord2ymd d)
  else String "#" (NilEmpty.string_of_int (Z.to_int d)).

Definition iso_strptime (s : string) : option date :=
  match s with
  | String c rest =>
      if Ascii.eqb c "#" then Z.of_int <$> NilEmpty.int_of_string rest
      else parse_date s
  | EmptyString => None
  end.

End IsoFormat.
Export IsoFormat.

(** ** Bars and daily files *)

(** One row of table [tf_1m]:
    [Datetime TEXT PRIMARY KEY, Open REAL, High REAL, Low REAL, Close REAL,
     Volume INTEGER]. *)
Record Bar := mkBar {
  Datetime : Z;
  Open : Q;
  High : Q;
  Low : Q;
  Close : Q;
  Volume : Z
}.

(** A data frame indexed by [Datetime] is the list of its rows, in order. *)
Abbreviation frame := (list Bar).

(** What a file [<stem>.sqlite3] of the data directory can be: something
    SQLite refuses to open as a database, or a database in which table
    [tf_1m] is absent (or unusable) or holds rows. *)
Inductive db_file :=
| NotADatabase
| Database (tf_1m : option frame).

(** The data directory, keyed by the stem of each [*.sqlite3] file that
    [glob] reports. *)
Abbreviation directory := (gmap string db_file).

(** Outcome of a call that may raise. *)
Inductive result (A : Type) :=
| Ok (a : A)
| Raise.
Arguments Ok {A} a.
Arguments Raise {A}.

Section DataAccessLayer.
Context `{DateFormat}.

(** [_get_db_path_for_date]: the file of a day is named by its date. *)
Definition _get_db_path_for_date (target_date : date) : string :=
  strftime target_date.

(** [os.path.exists]. *)
Definition path_exists (db_path : string) (dir : directory) : bool :=
  bool_decide (is_Some (dir !! db_path)).

(** [_ensure_table_exists]: connecting creates a missing file as an empty
    database; [CREATE TABLE IF NOT EXISTS] adds an empty table unless
    there is one; on a file that is not a database the statement fails. *)
Definition _ensure_table_exists (db_path : string) (dir : directory)
  : result directory :=
  match dir !! db_path with
  | None => Ok (<[db_path := Database (Some [])]> dir)
  | Some (Database None) => Ok (<[db_path := Database (Some [])]> dir)
  | Some (Database (Some _)) => Ok dir
  | Some NotADatabase => Raise
  end.

(** [novos_dados.to_sql(table, conn, if_exists='replace')]: the table is
    dropped and written anew with the rows of the frame. *)
Definition to_sql (novos_dados : frame) (db_path : string) (dir : directory)
  : result directory :=
  match dir !! db_path with
  | Some NotADatabase => Raise
  | _ => Ok (<[db_path := Database (Some novos_dados)]> dir)
  end.

(** [pd.read_sql_query("SELECT * FROM tf_1m", conn, index_col='Datetime')];
    [None] stands for any exception raised on the way. *)
Definition read_sql_query (db_path : string) (dir : directory)
  : option frame :=
  match dir !! db_path with
  | Some (Database (Some rows)) => Some rows
  | _ => None
  end.

(** ** The sync cursor *)

(** Python's [max] over a non-empty list. *)
Definition max_date (d : date) (ds : list date) : date :=
  fold_left Z.max ds d.

(** [_get_ultima_data_db]: the latest date among the file names, or
    [None] when there is no file or when some name raises [ValueError]. *)
Definition _get_ultima_data_db (dir : directory) : option date :=
  let db_files := (map_to_list dir).*1 in
  match db_files with
  | [] => None
  | _ =>
      match mapM strptime db_files with
      | Some (d :: ds) => Some (max_date d ds)
      | _ => None
      end
  end.

(** ** Synchronisation *)

(** The provider: the frame [yf.download] returns for the session of one
    day (empty on a holiday, a gap, or an error it swallowed). *)
Variable yf_download : date → frame.

(** State threaded through a run: the directory, the days the provider
    was asked for (oldest first), and whether an exception escaped. *)
Record sync_state := mkSync {
  cache : directory;
  fetched : list date;
  raised : bool
}.

(** Body of the [while] loop for one [current_date]. *)
Definition sync_day (current_date : date) (st : sync_state) : sync_state :=
  if decide (weekday current_date < 5) then
    let novos_dados := yf_download current_date in
    let asked := fetched st ++ [current_date] in
    match novos_dados with
    | [] => mkSync (cache st) asked false
    | _ =>
        let db_path := _get_db_path_for_date current_date in
        match _ensure_table_exists db_path (cache st) with
        | Raise => mkSync (cache st) asked true
        | Ok dir1 =>
            match to_sql novos_dados db_path dir1 with
            | Raise => mkSync dir1 asked true
            | Ok dir2 => mkSync dir2 asked false
            end
        end
    end
  else st.

(** [while current_date < data_final: ...; current_date += 1 day], left
    early when the body raised. *)
Fixpoint sync_while (fuel : nat) (current_date data_final : date)
  (st : sync_state) : sync_state :=
  match fuel with
  | O => st
  | S fuel' =>
      if raised st then st
      else if decide (current_date < data_final) then
        sync_while fuel' (current_date + 1) data_final
          (sync_day current_date st)
      else st
  end.

(** Lines 82-88: where a run starts.  Without a cursor it goes back six
    days; otherwise it resumes on the day after the cursor. *)
Definition data_inicial (today : date) (dir : directory) : date :=
  match _get_ultima_data_db dir with
  | None => today - 6
  | Some ultima_data_db => ultima_data_db + 1
  end.

(** [sincronizar_dados_historicos], with [today] for [date.today()]. *)
Definition sincronizar_dados_historicos (today : date) (dir : directory)
  : sync_state :=
  let data_inicial := data_inicial today dir in
  let data_final := today in
  if decide (data_inicial >= data_final) then mkSync dir [] false
  else
    sync_while (Z.to_nat (data_final - data_inicial)) data_inicial data_final
      (mkSync dir [] false).

End DataAccessLayer.

(** ** Data-frame operations used by the composer *)

Module Frame.

(** [pd.concat(lista_dfs)]: the rows of the frames, one frame after another. *)
Definition concat_frames (lista_dfs : list frame) : frame := concat lista_dfs.

(** [index.duplicated(keep='first')]: one flag per row, set when the index
    value has already occurred in an earlier row. *)
Fixpoint duplicated (seen : list Z) (index : list Z) : list bool :=
  match index with
  | [] => []
  | t :: rest => bool_decide (t ∈ seen) :: duplicated (t :: seen) rest
  end.

(** Boolean-mask selection [df[mask]]. *)
Fixpoint select_rows {A} (mask : list bool) (rows : list A) : list A :=
  match mask, rows with
  | keep :: mask', r :: rows' =>
      if keep then r :: select_rows mask' rows' else select_rows mask' rows'
  | _, _ => []
  end.

(** [df[~df.index.duplicated(keep='first')]]. *)
Definition drop_duplicated (rows : frame) : frame :=
  select_rows (negb <$> duplicated [] (Datetime <$> rows)) rows.

(** Order of rows by index value. *)
Definition index_le (a b : Bar) : Prop := Datetime a ≤ Datetime b.

#[global] Instance index_le_dec a b : Decision (index_le a b).
Proof. unfold index_le. apply _. Defined.

(** [df.sort_index()]. *)
Definition sort_index (rows : frame) : frame := merge_sort index_le rows.

(** *** Resampling *)

(** Left edge of the first bin and right edge of the last one, for a
    fixed-width rule with the defaults [closed='left'],
    [origin='start_day']: edges are counted from midnight of the day of the
    first row. *)
Definition bin_range (w first last : Z) : Z * Z :=
  let origin := normalize first in
  let foffset := (first - origin) mod w in
  let loffset := (last - origin) mod w in
  let fresult := if decide (0 < foffset) then first - foffset else first in
  let lresult :=
    if decide (0 < loffset) then last + (w - loffset) else last + w in
  (fresult, lresult).

(** Labels of the bins ([label='left']): every multiple of the width from
    the first edge up to, and excluding, the last edge. *)
Definition bin_labels (w : Z) (index : list Z) : list Z :=
  match index with
  | [] => []
  | first :: _ =>
      let last := List.last index first in
      let '(fresult, lresult) := bin_range w first last in
      (λ i, fresult + i * w) <$> seqZ 0 ((lresult - fresult) / w)
  end.

(** Rows of a bin: those with [label <= Datetime < label + w]. *)
Definition in_bin (w label : Z) (b : Bar) : Prop :=
  label ≤ Datetime b < label + w.

#[global] Instance in_bin_dec w label b : Decision (in_bin w label b).
Proof. unfold in_bin. apply _. Defined.

Definition bin_rows (w label : Z) (rows : frame) : frame :=
  filter (in_bin w label) rows.

(** The larger and the smaller of two prices. *)
Definition price_max (a b : Q) : Q := if Qle_bool a b then b else a.
Definition price_min (a b : Q) : Q := if Qle_bool a b then a else b.

(** Column aggregations; [None] is the NaN pandas gives for an empty bin. *)
Definition agg_first (col : list Q) : option Q := head col.
Definition agg_last (col : list Q) : option Q := last col.
Definition agg_max (col : list Q) : option Q :=
  match col with
  | [] => None
  | x :: rest => Some (fold_left price_max rest x)
  end.
Definition agg_min (col : list Q) : option Q :=
  match col with
  | [] => None
  | x :: rest => Some (fold_left price_min rest x)
  end.

(** The Volume column is int64 and numpy adds int64 values without a check:
    a sum is kept modulo 2^64, in the range from -2^63 to 2^63 - 1. *)
Definition wrap64 (z : Z) : Z := (z + 2 ^ 63) mod 2 ^ 64 - 2 ^ 63.
Definition add64 (a b : Z) : Z := wrap64 (a + b).

(** ['sum'] over the cells of a bin, each of them an int64 already: the
    first cell, and every further cell added to it in int64.  An empty bin
    sums to 0. *)
Definition agg_sum (col : list Z) : Z :=
  match col with
  | [] => 0
  | x :: rest => fold_left add64 rest x
  end.

(** A row of the resampled frame before [dropna]. *)
Record agg_row := mkAgg {
  agg_label : Z;
  agg_open : option Q;
  agg_high : option Q;
  agg_low : option Q;
  agg_close : option Q;
  agg_volume : Z
}.

(** [.agg({'Open': 'first', 'High': 'max', 'Low': 'min', 'Close': 'last',
          'Volume': 'sum'})] on one bin. *)
Definition agg_bin (label : Z) (rows : frame) : agg_row :=
  mkAgg label
    (agg_first (Open <$> rows))
    (agg_max (High <$> rows))
    (agg_min (Low <$> rows))
    (agg_last (Close <$> rows))
    (agg_sum (Volume <$> rows)).

(** [df.resample(rule).agg(regras_resample)] for a rule [w] minutes wide. *)
Definition resample_agg (w : Z) (rows : frame) : list agg_row :=
  (λ label, agg_bin label (bin_rows w label rows))
    <$> bin_labels w (Datetime <$> rows).

(** [dropna]: a row survives when none of its cells is NaN. *)
Definition complete_row (r : agg_row) : option Bar :=
  match agg_open r, agg_high r, agg_low r, agg_close r with
  | Some o, Some h, Some l, Some c => Some (mkBar (agg_label r) o h l c (agg_volume r))
  | _, _, _, _ => None
  end.

Definition dropna (rows : list agg_row) : frame := omap complete_row rows.

End Frame.
Export Frame.

(** The [timeframe] argument as pandas understands it: a rule of fixed
    width, in minutes (["5min"] is [Minutes 5], ["30min"] is [Minutes 30],
    ["D"] is [Minutes 1440]), or a string it rejects with [ValueError]. *)
Inductive rule :=
| Minutes (n : positive)
| Malformed.

Section Composer.
Context `{DateFormat}.

(** Body of the reading loop: a day whose file is missing is passed over,
    a day whose file cannot be read is logged and passed over. *)
Definition read_day (current_date : date) (dir : directory)
  (lista_dfs : list frame) : list frame :=
  let db_path := _get_db_path_for_date current_date in
  if path_exists db_path dir then
    match read_sql_query db_path dir with
    | Some df_dia => lista_dfs ++ [df_dia]
    | None => lista_dfs
    end
  else lista_dfs.

(** [while current_date <= end: ...; current_date += 1 day]. *)
Fixpoint read_while (fuel : nat) (current_date end_date : date)
  (dir : directory) (lista_dfs : list frame) : list frame :=
  match fuel with
  | O => lista_dfs
  | S fuel' =>
      if decide (current_date ≤ end_date) then
        read_while fuel' (current_date + 1) end_date dir
          (read_day current_date dir lista_dfs)
      else lista_dfs
  end.

(** Lines 136-148: the frames read for the days of the range, in order. *)
Definition lista_dfs (start end_date : date) (dir : directory) : list frame :=
  read_while (Z.to_nat (end_date - start + 1)) start end_date dir [].

(** Lines 154-156: concatenate, drop repeated timestamps, sort. *)
Definition merge_frames (dfs : list frame) : frame :=
  sort_index (drop_duplicated (concat_frames dfs)).

(** [buscar_dados(timeframe, data_inicio, data_fim)], the two dates
    already converted by [pd.to_datetime(...).date()]. *)
Definition buscar_dados (timeframe : rule) (start end_date : date)
  (dir : directory) : result frame :=
  match lista_dfs start end_date dir with
  | [] => Ok []
  | dfs =>
      let dados_1m := merge_frames dfs in
      match timeframe with
      | Malformed => Raise
      | Minutes n => Ok (dropna (resample_agg (Z.pos n) dados_1m))
      end
  end.

End Composer.

(** * Vocabulary of the statements *)

Module Vocabulary.

(** A Saturday or a Sunday. *)
Definition weekend (d : date) : Prop := weekday d = 5 ∨ weekday d = 6.

(** The weekdays of a window, oldest first. *)
Definition weekdays_from (cur fin : date) : list date :=
  filter (λ d, weekday d < 5) (seqZ cur (fin - cur)).

(** The frame a day contributes to a query: its table when the file is
    there and can be read, nothing otherwise. *)
Definition day_frame `{DateFormat} (dir : directory) (d : date)
  : option frame :=
  read_sql_query (_get_db_path_for_date d) dir.

(** Rows with a given index value. *)
Definition rows_at (t : Z) (rows : frame) : frame :=
  filter (λ b, Datetime b = t) rows.

(** Strictly ascending timestamps. *)
Definition index_lt (a b : Bar) : Prop := Datetime a < Datetime b.

(** [m] is a largest, resp. smallest, element of a column. *)
Definition is_max (m : Q) (col : list Q) : Prop :=
  m ∈ col ∧ ∀ x, x ∈ col → (x <= m)%Q.
Definition is_min (m : Q) (col : list Q) : Prop :=
  m ∈ col ∧ ∀ x, x ∈ col → (m <= x)%Q.

(** Plain sum of a column of integers. *)
Definition total (col : list Z) : Z := foldr Z.add 0 col.

(** A value of the signed 64-bit range. *)
Definition int64 (z : Z) : Prop := - 2 ^ 63 ≤ z < 2 ^ 63.

(** What the five aggregation rules say of an output row [r] and the rows
    [bars] of its bin, listed in ascending time.  The volume is the sum of
    the volumes brought back to the int64 range, hence the sum itself when
    the sum is in that range. *)
Record aggregates (bars : frame) (r : Bar) : Prop := mkAggregates {
  agg_bars_first : Open <$> head bars = Some (Open r);
  agg_bars_last : Close <$> last bars = Some (Close r);
  agg_bars_high : is_max (High r) (High <$> bars);
  agg_bars_low : is_min (Low r) (Low <$> bars);
  agg_bars_volume :
    Forall int64 (Volume <$> bars) →
    Volume r = (total (Volume <$> bars) + 2 ^ 63) mod 2 ^ 64 - 2 ^ 63;
  agg_bars_volume_exact :
    int64 (total (Volume <$> bars)) → Volume r = total (Volume <$> bars)
}.

(** Left edge of the bin of timestamp [t], for bins of width [w] counted
    from [origin]. *)
Definition bucket_label (w origin t : Z) : Z := t - (t - origin) mod w.

(** The example of the specification: five minute bars from 09:00 to
    09:04, here on Monday 2024-01-08 (ordinal 738893). *)
Definition example_day : date := 738893.
Definition example_bars : frame :=
  [ mkBar (midnight example_day + 540) (10#1) (21#2) (49#5) (51#5) 100;
    mkBar (midnight example_day + 541) (51#5) (103#10) (10#1) (101#10) 50;
    mkBar (midnight example_day + 542) (101#10) (52#5) (101#10) (103#10) 75;
    mkBar (midnight example_day + 543) (103#10) (53#5) (51#5) (21#2) 60;
    mkBar (midnight example_day + 544) (21#2) (21#2) (103#10) (52#5) 40 ].

End Vocabulary.
Export Vocabulary.

(** * Properties *)

(** ** The sync cursor *)

Section CursorFacts.
Context `{DateFormat}.

Lemma max_date_spec d ds :
  max_date d ds ∈ d :: ds ∧ Forall (λ x, x ≤ max_date d ds) (d :: ds).
Proof.
  unfold max_date. revert d. induction ds as [|e ds IH]; intros d; simpl.
  - split; [left | by repeat constructor].
  - destruct (IH (Z.max d e)) as [Hin Hall]. split.
    + apply elem_of_cons in Hin as [Heq | Hin].
      * rewrite Heq. destruct (Z.max_spec d e) as [[_ ->] | [_ ->]].
        -- right; left.
        -- left.
      * by do 2 right.
    + apply Forall_cons in Hall as [Hm Hall].
      repeat constructor; [lia | lia | done].
Qed.

(** Different days are stored under different names. *)
Lemma db_path_inj d1 d2 :
  _get_db_path_for_date d1 = _get_db_path_for_date d2 → d1 = d2.
Proof.
  unfold _get_db_path_for_date. intros Heq.
  assert (Some d1 = Some d2) as [= ->]; [|done].
  by rewrite <- !strptime_strftime, Heq.
Qed.

Lemma elem_of_db_files (dir : directory) stem :
  stem ∈ (map_to_list dir).*1 ↔ is_Some (dir !! stem).
Proof.
  rewrite list_elem_of_fmap. split.
  - intros [[k v] [-> Hkv]]. apply elem_of_map_to_list in Hkv. by exists v.
  - intros [v Hv]. exists (stem, v). split; [done|].
    by apply elem_of_map_to_list.
Qed.

(** There is no cursor exactly when the directory holds no file, or holds a
    file whose name is not a date. *)
Lemma cursor_None (dir : directory) :
  _get_ultima_data_db dir = None ↔
  dir = ∅ ∨ ∃ stem, is_Some (dir !! stem) ∧ strptime stem = None.
Proof.
  unfold _get_ultima_data_db. split.
  - destruct ((map_to_list dir).*1) as [|s l] eqn:Hl.
    + intros _. left. apply map_to_list_empty_iff.
      by destruct (map_to_list dir).
    + destruct (mapM strptime (s :: l)) as [[|d ds]|] eqn:Hm.
      * apply length_mapM in Hm. discriminate.
      * discriminate.
      * intros _. right. apply mapM_None, Exists_exists in Hm.
        destruct Hm as (stem & Hin & Hnone). exists stem. split; [|done].
        apply elem_of_db_files. by rewrite Hl.
  - intros [-> | (stem & Hsome & Hnone)].
    + by rewrite map_to_list_empty.
    + apply elem_of_db_files in Hsome.
      destruct ((map_to_list dir).*1) as [|s l]; [done|].
      assert (mapM strptime (s :: l) = None) as ->; [|done].
      apply mapM_None, Exists_exists. eauto.
Qed.

(** A cursor is the date of some file and no file has a later date. *)
Lemma cursor_Some (dir : directory) c :
  _get_ultima_data_db dir = Some c →
  (∀ stem, is_Some (dir !! stem) → ∃ d, strptime stem = Some d ∧ d ≤ c) ∧
  (∃ stem, is_Some (dir !! stem) ∧ strptime stem = Some c).
Proof.
  unfold _get_ultima_data_db.
  destruct ((map_to_list dir).*1) as [|s l] eqn:Hl; [done|].
  destruct (mapM strptime (s :: l)) as [[|d ds]|] eqn:Hm; [done| |done].
  intros [= <-]. apply mapM_Some in Hm.
  destruct (max_date_spec d ds) as [Hin Hall]. split.
  - intros stem Hsome. apply elem_of_db_files in Hsome. rewrite Hl in Hsome.
    apply list_elem_of_lookup in Hsome as [i Hi].
    destruct (Forall2_lookup_l _ _ _ _ _ Hm Hi) as (e & He & Hparse).
    exists e. split; [done|].
    rewrite Forall_forall in Hall. apply Hall.
    apply list_elem_of_lookup. eauto.
  - apply list_elem_of_lookup in Hin as [i Hi].
    destruct (Forall2_lookup_r _ _ _ _ _ Hm Hi) as (stem & Hstem & Hparse).
    exists stem. split; [|done].
    apply elem_of_db_files. rewrite Hl. apply list_elem_of_lookup. eauto.
Qed.

(** With every name a date, the cursor exists. *)
Lemma cursor_is_Some (dir : directory) :
  dir ≠ ∅ →
  (∀ stem, is_Some (dir !! stem) → is_Some (strptime stem)) →
  is_Some (_get_ultima_data_db dir).
Proof.
  intros Hne Hall. destruct (_get_ultima_data_db dir) eqn:Hc; [done|].
  apply cursor_None in Hc as [-> | (stem & Hsome & Hnone)]; [done|].
  apply Hall in Hsome. rewrite Hnone in Hsome. by destruct Hsome.
Qed.

End CursorFacts.

(** ** One run of the synchroniser *)

Section SyncFacts.
Context `{DateFormat}.
Variable yf_download : date → frame.

Abbreviation sync_day' := (sync_day yf_download).
Abbreviation sync_while' := (sync_while yf_download).
Abbreviation path := _get_db_path_for_date.

(** What one round of the loop does, by cases on the day and on the file. *)
Inductive sync_day_spec (d : date) (st : sync_state) : sync_state → Prop :=
| day_weekend :
    ¬ weekday d < 5 →
    sync_day_spec d st st
| day_empty :
    weekday d < 5 → yf_download d = [] →
    sync_day_spec d st (mkSync (cache st) (fetched st ++ [d]) false)
| day_raise :
    weekday d < 5 → yf_download d ≠ [] →
    cache st !! path d = Some NotADatabase →
    sync_day_spec d st (mkSync (cache st) (fetched st ++ [d]) true)
| day_write :
    weekday d < 5 → yf_download d ≠ [] →
    cache st !! path d ≠ Some NotADatabase →
    sync_day_spec d st
      (mkSync (<[path d := Database (Some (yf_download d))]> (cache st))
         (fetched st ++ [d]) false).

Lemma sync_day_cases d st : sync_day_spec d st (sync_day' d st).
Proof.
  unfold sync_day. destruct (decide (weekday d < 5)) as [Hw|Hw].
  2: { by constructor. }
  destruct (yf_download d) as [|b rows] eqn:Hrows.
  { by constructor. }
  rewrite <- Hrows. assert (yf_download d ≠ []) as Hne by (by rewrite Hrows).
  unfold _ensure_table_exists, to_sql.
  destruct (cache st !! _get_db_path_for_date d) as [[|[old|]]|] eqn:Hfile.
  - by constructor.
  - rewrite Hfile. by apply day_write; [..|rewrite Hfile].
  - rewrite lookup_insert_eq, insert_insert_eq.
    by apply day_write; [..|rewrite Hfile].
  - rewrite lookup_insert_eq, insert_insert_eq.
    by apply day_write; [..|rewrite Hfile].
Qed.

(** *** The loop ends on its own condition

    The number of rounds given to [sync_while] by the synchroniser is the
    number of days of the window: more rounds change nothing. *)

Lemma sync_while_enough_fuel fuel1 fuel2 cur fin st :
  fin - cur ≤ Z.of_nat fuel1 → fin - cur ≤ Z.of_nat fuel2 →
  sync_while' fuel1 cur fin st = sync_while' fuel2 cur fin st.
Proof.
  revert fuel2 cur st.
  induction fuel1 as [|fuel1 IH]; intros fuel2 cur st H1 H2.
  - destruct fuel2 as [|fuel2]; [done|]. simpl.
    destruct (raised st); [done|]. by rewrite decide_False by lia.
  - simpl. destruct fuel2 as [|fuel2]; simpl.
    + destruct (raised st); [done|]. by rewrite decide_False by lia.
    + destruct (raised st); [done|]. case_decide; [|done].
      apply IH; lia.
Qed.

(** *** Files the loop leaves alone *)

Lemma sync_day_cache_other d st name :
  path d ≠ name → cache (sync_day' d st) !! name = cache st !! name.
Proof.
  intros Hne. destruct (sync_day_cases d st); simpl; try done.
  by rewrite lookup_insert_ne.
Qed.

Lemma sync_while_cache_other fuel cur fin st name :
  (∀ d, cur ≤ d < fin → path d ≠ name) →
  cache (sync_while' fuel cur fin st) !! name = cache st !! name.
Proof.
  revert cur st. induction fuel as [|fuel IH]; intros cur st Hother; simpl.
  { done. }
  destruct (raised st); [done|]. case_decide; [|done].
  rewrite IH.
  - apply sync_day_cache_other, Hother. lia.
  - intros d Hd. apply Hother. lia.
Qed.

(** A file, once there, stays. *)
Lemma sync_day_cache_is_Some d st name :
  is_Some (cache st !! name) → is_Some (cache (sync_day' d st) !! name).
Proof.
  intros Hsome. destruct (sync_day_cases d st); simpl; try done.
  rewrite lookup_insert. by case_decide.
Qed.

Lemma sync_while_cache_is_Some fuel cur fin st name :
  is_Some (cache st !! name) →
  is_Some (cache (sync_while' fuel cur fin st) !! name).
Proof.
  revert cur st. induction fuel as [|fuel IH]; intros cur st Hsome; simpl.
  { done. }
  destruct (raised st); [done|]. case_decide; [|done].
  by apply IH, sync_day_cache_is_Some.
Qed.

(** A file found after the loop was there before, or is the file of a day
    of the window. *)
Lemma sync_while_cache_new fuel cur fin st name :
  is_Some (cache (sync_while' fuel cur fin st) !! name) →
  is_Some (cache st !! name) ∨ ∃ d, cur ≤ d < fin ∧ name = path d.
Proof.
  intros Hsome.
  destruct (strptime name) as [d|] eqn:Hparse.
  - destruct (decide (cur ≤ d < fin ∧ path d = name)) as [[Hd Hname]|Hno].
    { right. by exists d. }
    left. rewrite <- (sync_while_cache_other fuel cur fin); [done|].
    intros e He Hpe. apply Hno. subst name.
    unfold _get_db_path_for_date in Hparse.
    rewrite strptime_strftime in Hparse. by injection Hparse as ->.
  - left. rewrite <- (sync_while_cache_other fuel cur fin); [done|].
    intros e He Hpe. subst name. unfold _get_db_path_for_date in Hparse.
    by rewrite strptime_strftime in Hparse.
Qed.

(** *** Days the provider is asked for *)

Lemma sync_day_fetched d st :
  fetched (sync_day' d st)
  = fetched st ++ (if decide (weekday d < 5) then [d] else []).
Proof.
  destruct (sync_day_cases d st); simpl; case_decide; try done.
  by rewrite app_nil_r.
Qed.

Lemma sync_while_fetched fuel cur fin st :
  ∃ asked,
    fetched (sync_while' fuel cur fin st) = fetched st ++ asked ∧
    Forall (λ d, cur ≤ d < fin ∧ weekday d < 5) asked.
Proof.
  revert cur st. induction fuel as [|fuel IH]; intros cur st; simpl.
  { exists []. by rewrite app_nil_r. }
  destruct (raised st). { exists []. by rewrite app_nil_r. }
  case_decide as Hlt. 2: { exists []. by rewrite app_nil_r. }
  destruct (IH (cur + 1) (sync_day' cur st)) as (asked & -> & Hall).
  rewrite sync_day_fetched, <- app_assoc. eexists. split; [done|].
  apply Forall_app. split.
  - case_decide; repeat constructor; lia.
  - eapply Forall_impl; [done|]. simpl. intros d. lia.
Qed.

(** *** When the loop raises *)

(** An exception can only come from a day of the window whose file was
    already in the directory and is not a database. *)
Lemma sync_while_raised fuel cur fin st :
  raised st = false →
  raised (sync_while' fuel cur fin st) = true →
  ∃ d, cur ≤ d < fin ∧ cache st !! path d = Some NotADatabase.
Proof.
  revert cur st. induction fuel as [|fuel IH]; intros cur st Hst; simpl.
  { congruence. }
  rewrite Hst. case_decide as Hlt; [|congruence].
  intros Hr. destruct (sync_day_cases cur st) as [Hw|Hw He|Hw Hne Hf|Hw Hne Hf].
  - destruct (IH _ _ Hst Hr) as (d & Hd & Hfile). exists d. split; [lia|done].
  - apply IH in Hr as (d & Hd & Hfile); [|done].
    exists d. split; [lia|done].
  - exists cur. split; [lia|done].
  - apply IH in Hr as (d & Hd & Hfile); [|done].
    exists d. split; [lia|]. simpl in Hfile.
    rewrite lookup_insert_ne in Hfile; [done|].
    intros Heq%db_path_inj. lia.
Qed.

(** *** A run that completes *)

Lemma weekdays_from_cons cur fin :
  cur < fin →
  weekdays_from cur fin
  = (if decide (weekday cur < 5) then [cur] else [])
      ++ weekdays_from (cur + 1) fin.
Proof.
  intros Hlt. unfold weekdays_from. rewrite seqZ_cons by lia.
  replace (Z.pred (fin - cur)) with (fin - (cur + 1)) by lia.
  replace (Z.succ cur) with (cur + 1) by lia.
  rewrite filter_cons. by case_decide.
Qed.

Lemma elem_of_weekdays_from cur fin d :
  d ∈ weekdays_from cur fin ↔ cur ≤ d < fin ∧ weekday d < 5.
Proof.
  unfold weekdays_from. rewrite list_elem_of_filter, elem_of_seqZ. lia.
Qed.

(** If nothing was raised, every weekday of the window was asked for, in
    order, and every non-empty answer is now the content of that day's
    file. *)
Lemma sync_while_completed fuel cur fin st :
  raised st = false →
  fin - cur ≤ Z.of_nat fuel →
  raised (sync_while' fuel cur fin st) = false →
  fetched (sync_while' fuel cur fin st)
    = fetched st ++ weekdays_from cur fin ∧
  ∀ d, cur ≤ d < fin → weekday d < 5 → yf_download d ≠ [] →
    cache (sync_while' fuel cur fin st) !! path d
    = Some (Database (Some (yf_download d))).
Proof.
  revert cur st. induction fuel as [|fuel IH]; intros cur st Hst Hfuel; simpl.
  { intros _. unfold weekdays_from. rewrite seqZ_nil by lia.
    split; [by rewrite app_nil_r | intros; lia]. }
  rewrite Hst. case_decide as Hlt.
  2: { intros _. unfold weekdays_from. rewrite seqZ_nil by lia.
       split; [by rewrite app_nil_r | intros; lia]. }
  intros Hr.
  assert (raised (sync_day' cur st) = false) as Hday.
  { destruct (raised (sync_day' cur st)) eqn:Hd; [|done].
    destruct fuel; simpl in Hr; rewrite ?Hd in Hr; congruence. }
  destruct (IH (cur + 1) (sync_day' cur st) Hday ltac:(lia) Hr)
    as [Hasked Hfiles].
  split.
  - rewrite Hasked, sync_day_fetched, (weekdays_from_cons cur fin) by done.
    by rewrite app_assoc.
  - intros d Hd Hw Hne. destruct (decide (d = cur)) as [->|Hdc].
    + rewrite sync_while_cache_other.
      * destruct (sync_day_cases cur st); simpl in *; try done.
        by rewrite lookup_insert_eq.
      * intros e He Heq%db_path_inj. lia.
    + apply Hfiles; [lia|done..].
Qed.

(** *** Running the loop where there is nothing left to write *)

Lemma sync_while_noop fuel cur fin st :
  (∀ d, cur ≤ d < fin → weekday d < 5 → yf_download d ≠ [] →
     cache st !! path d = Some (Database (Some (yf_download d)))) →
  cache (sync_while' fuel cur fin st) = cache st.
Proof.
  revert cur st. induction fuel as [|fuel IH]; intros cur st Hfiles; simpl.
  { done. }
  destruct (raised st); [done|]. case_decide as Hlt; [|done].
  assert (cache (sync_day' cur st) = cache st) as Hsame.
  { destruct (sync_day_cases cur st) as [Hw|Hw He|Hw Hne Hf|Hw Hne Hf];
      simpl; try done.
    apply insert_id, Hfiles; [lia|done..]. }
  rewrite IH; [done|]. intros d Hd Hw Hne. rewrite Hsame.
  apply Hfiles; [lia|done..].
Qed.

(** The loop run again over its own result, from the same day, changes no
    file: what it wrote is written again unchanged, and where it raised it
    raises again. *)
Lemma sync_while_rerun fuel cur fin st asked :
  raised st = false →
  cache (sync_while' fuel cur fin
           (mkSync (cache (sync_while' fuel cur fin st)) asked false))
  = cache (sync_while' fuel cur fin st).
Proof.
  revert cur st asked.
  induction fuel as [|fuel IH]; intros cur st asked Hst; simpl.
  { done. }
  rewrite Hst. case_decide as Hlt; [|by simpl].
  destruct (sync_day_cases cur st) as [Hw|Hw He|Hw Hne Hf|Hw Hne Hf].
  - destruct (sync_day_cases cur
        (mkSync (cache (sync_while' fuel (cur + 1) fin st)) asked false));
      simpl in *; try done.
    by apply IH.
  - set (st1 := mkSync (cache st) (fetched st ++ [cur]) false).
    destruct (sync_day_cases cur
        (mkSync (cache (sync_while' fuel (cur + 1) fin st1)) asked false));
      simpl in *; try done.
    by apply IH.
  - set (st1 := mkSync (cache st) (fetched st ++ [cur]) true).
    assert (sync_while' fuel (cur + 1) fin st1 = st1) as ->.
    { by destruct fuel. }
    simpl.
    destruct (sync_day_cases cur (mkSync (cache st) asked false));
      simpl in *; try done.
    by destruct fuel.
  - set (st1 := mkSync (<[path cur := Database (Some (yf_download cur))]>
                          (cache st)) (fetched st ++ [cur]) false).
    assert (cache (sync_while' fuel (cur + 1) fin st1) !! path cur
            = Some (Database (Some (yf_download cur)))) as Hkept.
    { rewrite sync_while_cache_other.
      - by apply lookup_insert_eq.
      - intros e He Heq%db_path_inj. lia. }
    destruct (sync_day_cases cur
        (mkSync (cache (sync_while' fuel (cur + 1) fin st1)) asked false))
      as [Hw'|Hw' He'|Hw' Hne' Hf'|Hw' Hne' Hf']; simpl in *; try done.
    + congruence.
    + rewrite insert_id by done. by apply IH.
Qed.

(** Which days the loop asks for: the weekdays of the window before which
    no write raises. *)
Lemma sync_while_asks fuel cur fin st d :
  raised st = false → fin - cur ≤ Z.of_nat fuel →
  d ∈ fetched (sync_while' fuel cur fin st) ↔
  d ∈ fetched st ∨
  (cur ≤ d < fin ∧ weekday d < 5 ∧
   ∀ e, cur ≤ e < d → weekday e < 5 → yf_download e ≠ [] →
        cache st !! path e ≠ Some NotADatabase).
Proof.
  revert cur st. induction fuel as [|fuel IH]; intros cur st Hst Hfuel; simpl.
  { split; [by left|]. intros [?|[? _]]; [done|lia]. }
  rewrite Hst. case_decide as Hlt.
  2: { split; [by left|]. intros [?|[? _]]; [done|lia]. }
  destruct (sync_day_cases cur st) as [Hw|Hw Hempty|Hw Hne Hf|Hw Hne Hf].
  - rewrite IH by (done || lia). split.
    + intros [?|(Hd & Hwd & Hok)]; [by left|right].
      split; [lia|]. split; [done|]. intros e He.
      destruct (decide (e = cur)) as [->|]; [done|]. apply Hok. lia.
    + intros [?|(Hd & Hwd & Hok)]; [by left|right].
      assert (d ≠ cur) by (by intros ->).
      split; [lia|]. split; [done|]. intros e He. apply Hok. lia.
  - rewrite IH by (done || lia). simpl.
    rewrite elem_of_app, list_elem_of_singleton. split.
    + intros [[?| ->]|(Hd & Hwd & Hok)]; [by left|right..].
      * split; [lia|]. split; [done|]. intros e He. lia.
      * split; [lia|]. split; [done|]. intros e He Hwe Hnee.
        destruct (decide (e = cur)) as [->|]; [done|]. apply Hok; [lia|done..].
    + intros [?|(Hd & Hwd & Hok)]; [left; by left|].
      destruct (decide (d = cur)) as [->|]; [left; by right|right].
      split; [lia|]. split; [done|]. intros e He. apply Hok. lia.
  - assert (∀ st1, raised st1 = true →
              sync_while' fuel (cur + 1) fin st1 = st1) as ->.
    { intros st1 Hst1. destruct fuel; simpl; [done|]. by rewrite Hst1. }
    2: done.
    simpl. rewrite elem_of_app, list_elem_of_singleton. split.
    + intros [?| ->]; [by left|right].
      split; [lia|]. split; [done|]. intros e He. lia.
    + intros [?|(Hd & Hwd & Hok)]; [by left|right].
      destruct (decide (d = cur)) as [->|]; [done|].
      destruct (Hok cur); [lia|done..].
  - rewrite IH by (done || lia). simpl.
    rewrite elem_of_app, list_elem_of_singleton. split.
    + intros [[?| ->]|(Hd & Hwd & Hok)]; [by left|right..].
      * split; [lia|]. split; [done|]. intros e He. lia.
      * split; [lia|]. split; [done|]. intros e He Hwe Hnee.
        destruct (decide (e = cur)) as [->|]; [done|].
        specialize (Hok e ltac:(lia) Hwe Hnee).
        rewrite lookup_insert_ne in Hok; [done|].
        intros Heq%db_path_inj. lia.
    + intros [?|(Hd & Hwd & Hok)]; [left; by left|].
      destruct (decide (d = cur)) as [->|]; [left; by right|right].
      split; [lia|]. split; [done|]. intros e He Hwe Hnee.
      rewrite lookup_insert_ne by (intros Heq%db_path_inj; lia).
      apply Hok; [lia|done..].
Qed.

End SyncFacts.

(** ** The synchroniser as a whole *)

Section SyncTheorems.
Context `{DateFormat}.
Variable yf_download : date → frame.

Abbreviation sync := (sincronizar_dados_historicos yf_download).
Abbreviation path := _get_db_path_for_date.

Lemma weekday_range d : 0 ≤ weekday d < 7.
Proof. unfold weekday. apply Z.mod_pos_bound. lia. Qed.

Lemma sync_unfold today dir :
  sync today dir =
    if decide (data_inicial today dir >= today) then mkSync dir [] false
    else sync_while yf_download
           (Z.to_nat (today - data_inicial today dir))
           (data_inicial today dir) today (mkSync dir [] false).
Proof. reflexivity. Qed.

(** The days asked for are the weekdays of the window, up to the point
    where a write raised. *)
Lemma sync_fetched_window today dir d :
  d ∈ fetched (sync today dir) →
  weekday d < 5 ∧ data_inicial today dir ≤ d < today.
Proof.
  rewrite sync_unfold. case_decide as Hge; simpl.
  { by intros ?%elem_of_nil. }
  destruct (sync_while_fetched yf_download
              (Z.to_nat (today - data_inicial today dir))
              (data_inicial today dir) today (mkSync dir [] false))
    as (asked & -> & Hall).
  simpl. intros Hin. rewrite Forall_forall in Hall.
  destruct (Hall d Hin). done.
Qed.

(** A run raises only on a file of the window that is not a database. *)
Lemma sync_raised today dir :
  raised (sync today dir) = true →
  ∃ d, data_inicial today dir ≤ d < today ∧
       dir !! path d = Some NotADatabase.
Proof.
  rewrite sync_unfold. case_decide as Hge; simpl; [done|].
  intros Hr. by apply sync_while_raised in Hr.
Qed.

Lemma sync_completed today dir :
  raised (sync today dir) = false →
  fetched (sync today dir) = weekdays_from (data_inicial today dir) today ∧
  ∀ d, data_inicial today dir ≤ d < today → weekday d < 5 →
    yf_download d ≠ [] →
    cache (sync today dir) !! path d = Some (Database (Some (yf_download d))).
Proof.
  rewrite sync_unfold. case_decide as Hge; simpl.
  { intros _. unfold weekdays_from. rewrite seqZ_nil by lia.
    split; [done | intros; lia]. }
  intros Hr.
  by apply sync_while_completed in Hr; [|done|lia].
Qed.

(** A run started from a directory whose names are all dates, or from an
    empty one, never raises: the files it writes are new. *)
Lemma sync_completes_from_cursor today dir :
  (dir = ∅ ∨ is_Some (_get_ultima_data_db dir)) →
  raised (sync today dir) = false.
Proof.
  intros Hdir. destruct (raised (sync today dir)) eqn:Hr; [|done].
  apply sync_raised in Hr as (d & Hd & Hfile).
  destruct Hdir as [-> | [c Hc]].
  { by rewrite lookup_empty in Hfile. }
  unfold data_inicial in Hd. rewrite Hc in Hd.
  apply cursor_Some in Hc as [Hall _].
  destruct (Hall (path d)) as (e & Hparse & Hle).
  { by rewrite Hfile. }
  unfold _get_db_path_for_date in Hparse.
  rewrite strptime_strftime in Hparse. injection Hparse as <-. lia.
Qed.

(** Files of the directory survive a run; a file found afterwards was there
    before or is the file of a day of the window. *)
Lemma sync_cache_is_Some today dir name :
  is_Some (dir !! name) → is_Some (cache (sync today dir) !! name).
Proof.
  rewrite sync_unfold. case_decide; simpl; [done|].
  apply (sync_while_cache_is_Some yf_download _ _ _ (mkSync dir [] false)).
Qed.

Lemma sync_cache_new today dir name :
  is_Some (cache (sync today dir) !! name) →
  is_Some (dir !! name) ∨
  ∃ d, data_inicial today dir ≤ d < today ∧ name = path d.
Proof.
  rewrite sync_unfold. case_decide; simpl; [by left|].
  apply (sync_while_cache_new yf_download _ _ _ (mkSync dir [] false)).
Qed.

(** A run never moves the start of the window backwards, and when the
    start moves the run has completed. *)
Lemma sync_start_advances today dir :
  data_inicial today (cache (sync today dir)) = data_inicial today dir ∨
  (data_inicial today dir < data_inicial today (cache (sync today dir)) ∧
   raised (sync today dir) = false).
Proof.
  destruct (_get_ultima_data_db dir) as [c|] eqn:Hc.
  - (* every name is a date: the cursor can only grow *)
    assert (raised (sync today dir) = false) as Hr.
    { apply sync_completes_from_cursor. right. by rewrite Hc. }
    destruct (cursor_Some dir c Hc) as [Hall (stem & Hstem & Hparse)].
    assert (is_Some (_get_ultima_data_db (cache (sync today dir))))
      as [c' Hc'].
    { apply cursor_is_Some.
      - intros Hempty. apply (sync_cache_is_Some today) in Hstem.
        rewrite Hempty, lookup_empty in Hstem. by destruct Hstem.
      - intros name [Hold | (d & _ & ->)]%sync_cache_new.
        + destruct (Hall name Hold) as (e & -> & _). done.
        + unfold _get_db_path_for_date. by rewrite strptime_strftime. }
    destruct (cursor_Some _ c' Hc') as [Hall' _].
    destruct (Hall' stem) as (e & Hparse' & Hle).
    { by apply sync_cache_is_Some. }
    rewrite Hparse in Hparse'. injection Hparse' as <-.
    unfold data_inicial. rewrite Hc, Hc'.
    destruct (decide (c = c')) as [->|Hne]; [by left|right].
    split; [lia|done].
  - apply cursor_None in Hc as Hwhy. destruct Hwhy as [-> | (stem & Hstem & Hbad)].
    + (* empty directory *)
      assert (raised (sync today ∅) = false) as Hr.
      { apply sync_completes_from_cursor. by left. }
      destruct (_get_ultima_data_db (cache (sync today ∅))) as [c'|] eqn:Hc'.
      2: { left. unfold data_inicial. by rewrite Hc, Hc'. }
      right. split; [|done].
      destruct (cursor_Some _ c' Hc') as [_ (stem & Hstem & Hparse)].
      apply sync_cache_new in Hstem as [Hold | (d & Hd & ->)].
      { rewrite lookup_empty in Hold. by destruct Hold. }
      unfold _get_db_path_for_date in Hparse.
      rewrite strptime_strftime in Hparse. injection Hparse as <-.
      unfold data_inicial in *. rewrite Hc in *. rewrite Hc'. lia.
    + (* a name that is not a date is still there afterwards *)
      left. unfold data_inicial. rewrite Hc.
      assert (_get_ultima_data_db (cache (sync today dir)) = None) as ->.
      { apply cursor_None. right. exists stem. split; [|done].
        by apply sync_cache_is_Some. }
      done.
Qed.

(** A run changes only files of days of its window. *)
Lemma sync_cache_changed today dir name :
  cache (sync today dir) !! name = dir !! name ∨
  ∃ d, data_inicial today dir ≤ d < today ∧ name = path d.
Proof.
  rewrite sync_unfold. case_decide; simpl; [by left|].
  set (s := data_inicial today dir).
  assert ((∃ d, s ≤ d < today ∧ name = path d) ∨
          (∀ d, s ≤ d < today → path d ≠ name)) as [Hin | Hout].
  { destruct (strptime name) as [e|] eqn:Hparse.
    - destruct (decide (s ≤ e < today ∧ path e = name)) as [[He Hname]|Hno].
      { left. by exists e. }
      right. intros d Hd Hname. apply Hno. subst name.
      unfold _get_db_path_for_date in Hparse.
      rewrite strptime_strftime in Hparse. by injection Hparse as ->.
    - right. intros d Hd Hname. subst name.
      unfold _get_db_path_for_date in Hparse.
      by rewrite strptime_strftime in Hparse. }
  - by right.
  - left. by rewrite sync_while_cache_other.
Qed.

(** C5: calling the synchroniser twice in succession, on the same day and
    with a provider that gives the same answers, leaves after the second
    call the directory the first call left: the same files with the same
    contents. *)
Theorem sync_twice_same_stores today dir :
  let first := sincronizar_dados_historicos yf_download today dir in
  let second :=
    sincronizar_dados_historicos yf_download today (cache first) in
  cache second = cache first.
Proof.
  cbv zeta.
  destruct (sync_start_advances today dir) as [Hsame | [Hlt Hdone]].
  - rewrite (sync_unfold today (cache _)), Hsame.
    rewrite (sync_unfold today dir).
    case_decide as Hge; simpl; [done|]. by apply sync_while_rerun.
  - rewrite (sync_unfold today (cache _)).
    case_decide as Hge; simpl; [done|].
    apply (sync_while_noop _ _ _ _ (mkSync _ [] false)).
    simpl. intros d Hd Hw Hne.
    apply sync_completed; [done|lia|done..].
Qed.

(** C6: a run on day [today] leaves the file of [today] as it found it, so
    it never creates it; every file it touches is the file of a day
    strictly before [today], and every day it asks the provider for is
    strictly before [today]. *)
Theorem sync_never_stores_today today dir :
  let run := sincronizar_dados_historicos yf_download today dir in
  cache run !! _get_db_path_for_date today
    = dir !! _get_db_path_for_date today ∧
  (∀ name, cache run !! name = dir !! name ∨
           ∃ d, d < today ∧ name = _get_db_path_for_date d) ∧
  Forall (λ d, d < today) (fetched run).
Proof.
  cbv zeta.
  split; [|split].
  - destruct (sync_cache_changed today dir (path today))
      as [Heq | (d & Hd & Hname%db_path_inj)]; [done|lia].
  - intros name.
    destruct (sync_cache_changed today dir name) as [Heq | (d & Hd & Hname)].
    + by left.
    + right. exists d. split; [lia|done].
  - apply Forall_forall. intros d Hd%sync_fetched_window. lia.
Qed.

(** C7: no day the provider is asked for during a run is a Saturday or a
    Sunday, whatever the directory (hence whatever the cursor or the
    bootstrap window) and whatever the day of the run. *)
Theorem sync_fetches_no_weekend today dir :
  let run := sincronizar_dados_historicos yf_download today dir in
  Forall (λ d, ¬ weekend d) (fetched run).
Proof.
  cbv zeta.
  apply Forall_forall. intros d [Hw _]%sync_fetched_window.
  unfold weekend. lia.
Qed.

(** The days a run asks for. *)
Lemma sync_asks today dir d :
  d ∈ fetched (sync today dir) ↔
  data_inicial today dir ≤ d < today ∧ weekday d < 5 ∧
  ∀ e, data_inicial today dir ≤ e < d → weekday e < 5 →
       yf_download e ≠ [] → dir !! path e ≠ Some NotADatabase.
Proof.
  rewrite sync_unfold. case_decide as Hge; simpl.
  { split; [by intros ?%elem_of_nil | intros [? _]; lia]. }
  rewrite (sync_while_asks yf_download) by (done || lia). simpl. split.
  - by intros [?%elem_of_nil|?].
  - by right.
Qed.

(** C3, as the code has it: a weekday [d] is asked for by a run on day
    [today] exactly when it lies in the window of that run, which starts
    on the day after the cursor, or six days back when there is no cursor,
    and no write of the run for an earlier day of the window raises: no
    earlier weekday of the window has an answer and a file that is not a
    database.  With a cursor [c] no write of the run raises, and [d] is asked
    for exactly when it lies after [c] and before [today]: a day the
    cursor has reached or passed is not asked for again.  Without a cursor
    a day more than six days back is not asked for. *)
Theorem sync_retries_inside_window today dir d :
  weekday d < 5 →
  let run := sincronizar_dados_historicos yf_download today dir in
  let start := data_inicial today dir in
  (d ∈ fetched run ↔
   start ≤ d < today ∧
   ∀ e, start ≤ e < d → weekday e < 5 → yf_download e ≠ [] →
        dir !! _get_db_path_for_date e ≠ Some NotADatabase) ∧
  (∀ c, _get_ultima_data_db dir = Some c →
     start = c + 1 ∧ raised run = false ∧ (d ∈ fetched run ↔ c < d < today)) ∧
  (_get_ultima_data_db dir = None →
     start = today - 6 ∧ (d < today - 6 → d ∉ fetched run)).
Proof.
  intros Hw. cbv zeta. split; [|split].
  - rewrite sync_asks. split; [by intros (? & _ & ?)|by intros [? ?]].
  - intros c Hc.
    assert (data_inicial today dir = c + 1) as Hstart.
    { unfold data_inicial. by rewrite Hc. }
    split; [done|]. split.
    { apply sync_completes_from_cursor. right. by rewrite Hc. }
    rewrite sync_asks, Hstart. split; [intros [? _]; lia|].
    intros Hd. split; [lia|]. split; [done|]. intros e He _ _ Hfile.
    apply cursor_Some in Hc as [Hall _].
    destruct (Hall (path e)) as (e' & Hparse & Hle); [by rewrite Hfile|].
    unfold _get_db_path_for_date in Hparse.
    rewrite strptime_strftime in Hparse. injection Hparse as <-. lia.
  - intros Hc.
    assert (data_inicial today dir = today - 6) as Hstart.
    { unfold data_inicial. by rewrite Hc. }
    split; [done|]. rewrite sync_asks, Hstart. intros Hlt [? _]. lia.
Qed.

(** C10: when some file of the directory has a name that is not a date,
    there is no cursor, however many well-named files there are; the run
    starts six days back, as from an empty directory, and asks only for
    days a run from an empty directory asks for.  When the files of those
    six days are databases it asks for exactly the same days, and every
    non-empty answer replaces the content of that day's file, whatever the
    file held. *)
Theorem sync_restarts_on_bad_name today dir stem :
  is_Some (dir !! stem) → strptime stem = None →
  let run := sincronizar_dados_historicos yf_download today dir in
  let from_nothing := sincronizar_dados_historicos yf_download today ∅ in
  _get_ultima_data_db dir = None ∧
  data_inicial today dir = today - 6 ∧
  data_inicial today dir = data_inicial today ∅ ∧
  (∀ d, d ∈ fetched run → d ∈ fetched from_nothing) ∧
  ((∀ d, today - 6 ≤ d < today →
      dir !! _get_db_path_for_date d ≠ Some NotADatabase) →
   fetched run = fetched from_nothing ∧
   ∀ d, today - 6 ≤ d < today → weekday d < 5 → yf_download d ≠ [] →
     cache run !! _get_db_path_for_date d
     = Some (Database (Some (yf_download d)))).
Proof.
  intros Hstem Hbad. cbv zeta.
  assert (_get_ultima_data_db dir = None) as Hc.
  { apply cursor_None. right. by exists stem. }
  assert (_get_ultima_data_db ∅ = None) as Hc0.
  { apply cursor_None. by left. }
  assert (data_inicial today dir = today - 6) as Hs.
  { unfold data_inicial. by rewrite Hc. }
  assert (data_inicial today ∅ = today - 6) as Hs0.
  { unfold data_inicial. by rewrite Hc0. }
  assert (fetched (sync today ∅) = weekdays_from (today - 6) today) as Hf0.
  { rewrite <- Hs0. apply sync_completed, sync_completes_from_cursor.
    by left. }
  split; [done|]. split; [done|]. split; [congruence|]. split.
  - intros d Hd%sync_fetched_window. rewrite Hf0. rewrite Hs in Hd.
    apply elem_of_weekdays_from. lia.
  - intros Hdb.
    assert (raised (sync today dir) = false) as Hr.
    { destruct (raised (sync today dir)) eqn:Hr; [|done].
      apply sync_raised in Hr as (d & Hd & Hfile). rewrite Hs in Hd.
      by destruct (Hdb d Hd). }
    split.
    + rewrite Hf0, <- Hs. by apply sync_completed.
    + intros d Hd Hw Hne. apply sync_completed; [done|by rewrite Hs|done..].
Qed.

End SyncTheorems.

(** ** Reading a range of days *)

Section ReadFacts.
Context `{DateFormat}.

Abbreviation path := _get_db_path_for_date.

Lemma read_day_spec d dir dfs :
  read_day d dir dfs = dfs ++ option_list (day_frame dir d).
Proof.
  unfold read_day, day_frame, path_exists, read_sql_query.
  destruct (dir !! path d) as [[|[rows|]]|] eqn:Hfile; simpl;
    rewrite ?app_nil_r; try done; by case_bool_decide.
Qed.

Lemma read_while_spec fuel cur end_date dir dfs :
  end_date - cur + 1 ≤ Z.of_nat fuel →
  read_while fuel cur end_date dir dfs
  = dfs ++ omap (day_frame dir) (seqZ cur (end_date - cur + 1)).
Proof.
  revert cur dfs. induction fuel as [|fuel IH]; intros cur dfs Hfuel; simpl.
  { rewrite seqZ_nil by lia. by rewrite app_nil_r. }
  case_decide as Hle.
  2: { rewrite seqZ_nil by lia. by rewrite app_nil_r. }
  rewrite IH by lia. rewrite read_day_spec, <- app_assoc.
  rewrite (seqZ_cons cur) by lia. simpl.
  replace (Z.pred (end_date - cur + 1)) with (end_date - (cur + 1) + 1) by lia.
  replace (Z.succ cur) with (cur + 1) by lia.
  by destruct (day_frame dir cur).
Qed.

(** The frames of a range are those of its readable days, oldest day
    first; the loop needs no more rounds than the range has days. *)
Lemma lista_dfs_spec start end_date dir :
  lista_dfs start end_date dir
  = omap (day_frame dir) (seqZ start (end_date - start + 1)).
Proof.
  unfold lista_dfs. rewrite read_while_spec; [done|lia].
Qed.

Lemma omap_all_None {A B} (f : A → option B) l :
  (∀ x, x ∈ l → f x = None) → omap f l = [].
Proof.
  induction l as [|x l IH]; intros Hnone; simpl; [done|].
  rewrite (Hnone x) by left. apply IH. intros y Hy. apply Hnone. by right.
Qed.

(** Deleting the file of a day that contributes nothing changes no read. *)
Lemma day_frame_delete dir d e :
  day_frame dir d = None →
  day_frame (delete (path d) dir) e = day_frame dir e.
Proof.
  unfold day_frame, read_sql_query. intros Hnone.
  destruct (decide (path d = path e)) as [Heq|Hne].
  - rewrite <- Heq, lookup_delete_eq.
    by destruct (dir !! path d) as [[|[rows|]]|].
  - by rewrite lookup_delete_ne.
Qed.

Lemma concat_all_nil (dfs : list frame) :
  (∀ df, df ∈ dfs → df = []) → concat_frames dfs = [].
Proof.
  unfold concat_frames.
  induction dfs as [|df dfs IH]; intros Hnil; simpl; [done|].
  rewrite (Hnil df) by left. apply IH. intros df' Hin. apply Hnil. by right.
Qed.

(** C8, as the code has it: over a range in which no day has a store that
    can be read, the query returns the empty frame, whatever the timeframe
    argument; it does not raise, even for a timeframe pandas would reject.
    With a well-formed timeframe the answer is empty as well when the
    stores that can be read hold no row; with a timeframe pandas rejects
    the query raises as soon as one store of the range can be read, rows
    or no rows. *)
Theorem query_empty_range_returns_empty start end_date dir :
  ((∀ d, start ≤ d ≤ end_date → day_frame dir d = None) →
   ∀ timeframe, buscar_dados timeframe start end_date dir = Ok []) ∧
  ((∀ d, start ≤ d ≤ end_date →
      day_frame dir d = None ∨ day_frame dir d = Some []) →
   ∀ n, buscar_dados (Minutes n) start end_date dir = Ok []) ∧
  (∀ d, start ≤ d ≤ end_date → is_Some (day_frame dir d) →
     buscar_dados Malformed start end_date dir = Raise).
Proof.
  split; [|split].
  - intros Hnone timeframe. unfold buscar_dados. rewrite lista_dfs_spec.
    rewrite omap_all_None; [done|].
    intros d Hd%elem_of_seqZ. apply Hnone. lia.
  - intros Hrows n. unfold buscar_dados.
    assert (concat_frames (lista_dfs start end_date dir) = []) as Hcat.
    { apply concat_all_nil. rewrite lista_dfs_spec.
      intros df (d & Hd%elem_of_seqZ & Hdf)%list_elem_of_omap.
      destruct (Hrows d) as [Hn | Hn]; [lia|congruence..]. }
    destruct (lista_dfs start end_date dir) as [|df dfs]; [done|].
    unfold merge_frames. by rewrite Hcat.
  - intros d Hd [rows Hrows]. unfold buscar_dados.
    assert (rows ∈ lista_dfs start end_date dir) as Hin.
    { rewrite lista_dfs_spec. apply list_elem_of_omap. exists d.
      split; [|done]. apply elem_of_seqZ. lia. }
    destruct (lista_dfs start end_date dir) as [|df dfs]; [|done].
    by apply elem_of_nil in Hin.
Qed.

End ReadFacts.

(** ** Merging: duplicates and order *)

Section MergeFacts.

(** [drop_duplicated] when some index values count as already seen. *)
Definition drop_seen (seen : list Z) (rows : frame) : frame :=
  select_rows (negb <$> duplicated seen (Datetime <$> rows)) rows.

Lemma drop_seen_cons seen b rows :
  drop_seen seen (b :: rows)
  = if decide (Datetime b ∈ seen) then drop_seen (Datetime b :: seen) rows
    else b :: drop_seen (Datetime b :: seen) rows.
Proof.
  unfold drop_seen. simpl. rewrite bool_decide_decide. by case_decide.
Qed.

(** Of the rows with a given timestamp only the first is kept. *)
Lemma rows_at_drop_seen t seen rows :
  rows_at t (drop_seen seen rows)
  = if decide (t ∈ seen) then [] else option_list (head (rows_at t rows)).
Proof.
  unfold rows_at. revert seen.
  induction rows as [|b rows IH]; intros seen.
  { by case_decide. }
  rewrite drop_seen_cons, (filter_cons _ b rows).
  destruct (decide (Datetime b = t)) as [<-|Hne].
  - case_decide as Hseen.
    + rewrite IH. rewrite decide_True by left. done.
    + rewrite filter_cons_True by done. rewrite IH.
      rewrite decide_True by left. done.
  - assert (t ∈ Datetime b :: seen ↔ t ∈ seen) as Hiff.
    { rewrite elem_of_cons. split; [|tauto].
      intros [Heq|Hin]; [congruence|done]. }
    case_decide as Hseen.
    + rewrite IH.
      destruct (decide (t ∈ Datetime b :: seen)), (decide (t ∈ seen));
        try done; tauto.
    + rewrite filter_cons_False by done. rewrite IH.
      destruct (decide (t ∈ Datetime b :: seen)), (decide (t ∈ seen));
        try done; tauto.
Qed.

Lemma drop_seen_fresh seen rows b :
  b ∈ drop_seen seen rows → Datetime b ∉ seen.
Proof.
  revert seen. induction rows as [|c rows IH]; intros seen.
  { by intros ?%elem_of_nil. }
  rewrite drop_seen_cons. case_decide as Hseen.
  - intros Hin%IH. rewrite not_elem_of_cons in Hin. tauto.
  - intros [->|Hin%IH]%elem_of_cons; [done|].
    rewrite not_elem_of_cons in Hin. tauto.
Qed.

Lemma drop_seen_NoDup seen rows : NoDup (Datetime <$> drop_seen seen rows).
Proof.
  revert seen. induction rows as [|c rows IH]; intros seen.
  { constructor. }
  rewrite drop_seen_cons. case_decide as Hseen; [apply IH|].
  rewrite fmap_cons. constructor; [|apply IH].
  intros (b & Heq & Hin%drop_seen_fresh)%list_elem_of_fmap.
  apply Hin. rewrite Heq. left.
Qed.

Lemma drop_seen_subseteq seen rows b : b ∈ drop_seen seen rows → b ∈ rows.
Proof.
  revert seen. induction rows as [|c rows IH]; intros seen.
  { done. }
  rewrite drop_seen_cons. case_decide.
  - intros ?%IH. by right.
  - intros [->|?%IH]%elem_of_cons; [left|by right].
Qed.

#[local] Instance index_le_total : Total index_le.
Proof. intros a b. unfold index_le. lia. Qed.

#[local] Instance index_le_trans : Transitive index_le.
Proof. intros a b c. unfold index_le. lia. Qed.

Lemma sorted_strict rows :
  StronglySorted index_le rows → NoDup (Datetime <$> rows) →
  StronglySorted index_lt rows.
Proof.
  induction 1 as [|b rows Hsorted IH Hall]; intros Hnd; constructor.
  - apply IH. by apply NoDup_cons in Hnd as [_ ?].
  - rewrite fmap_cons in Hnd. apply NoDup_cons in Hnd as [Hnotin _].
    rewrite Forall_forall in *. intros c Hc.
    specialize (Hall c Hc). unfold index_le, index_lt in *.
    destruct (decide (Datetime b = Datetime c)) as [Heq|]; [|lia].
    destruct Hnotin. rewrite Heq. apply list_elem_of_fmap. eauto.
Qed.

(** The merged series: strictly ascending, and at every timestamp exactly
    the first row of the concatenation that carries it. *)
Lemma merge_frames_sorted dfs : StronglySorted index_lt (merge_frames dfs).
Proof.
  unfold merge_frames, sort_index. apply sorted_strict.
  - apply StronglySorted_merge_sort; apply _.
  - rewrite merge_sort_Permutation. apply (drop_seen_NoDup []).
Qed.

Lemma merge_frames_rows_at dfs t :
  rows_at t (merge_frames dfs)
  = option_list (head (rows_at t (concat_frames dfs))).
Proof.
  assert (rows_at t (merge_frames dfs)
          ≡ₚ option_list (head (rows_at t (concat_frames dfs)))) as Hperm.
  { unfold merge_frames, sort_index, rows_at.
    rewrite merge_sort_Permutation.
    pose proof (rows_at_drop_seen t [] (concat_frames dfs)) as Hrows.
    unfold rows_at, drop_seen in Hrows. unfold drop_duplicated.
    rewrite Hrows. by rewrite decide_False by apply not_elem_of_nil. }
  destruct (head (rows_at t (concat_frames dfs))) as [b|]; simpl in *.
  - by apply Permutation_singleton_r.
  - by apply Permutation_nil_r.
Qed.

Lemma elem_of_merge_frames dfs b :
  b ∈ merge_frames dfs ↔
  head (rows_at (Datetime b) (concat_frames dfs)) = Some b.
Proof.
  split.
  - intros Hin.
    assert (b ∈ rows_at (Datetime b) (merge_frames dfs)) as Hat.
    { by apply list_elem_of_filter. }
    rewrite merge_frames_rows_at in Hat.
    destruct (head _) as [c|]; simpl in Hat.
    + by apply list_elem_of_singleton in Hat as ->.
    + by apply elem_of_nil in Hat.
  - intros Hhead.
    assert (b ∈ rows_at (Datetime b) (merge_frames dfs)) as Hat.
    { rewrite merge_frames_rows_at, Hhead. simpl. left. }
    by apply list_elem_of_filter in Hat as [_ ?].
Qed.

End MergeFacts.

(** ** Aggregation of a bin *)

Section AggFacts.

Lemma price_max_spec a b :
  (price_max a b = a ∨ price_max a b = b) ∧
  (a <= price_max a b)%Q ∧ (b <= price_max a b)%Q.
Proof.
  unfold price_max. destruct (Qle_bool a b) eqn:Hle.
  - apply Qle_bool_iff in Hle. split; [by right|]. split; [done|apply Qle_refl].
  - assert (¬ (a <= b)%Q) as Hnle.
    { intros Hab%Qle_bool_iff. congruence. }
    apply Qnot_le_lt, Qlt_le_weak in Hnle.
    split; [by left|]. split; [apply Qle_refl|done].
Qed.

Lemma price_min_spec a b :
  (price_min a b = a ∨ price_min a b = b) ∧
  (price_min a b <= a)%Q ∧ (price_min a b <= b)%Q.
Proof.
  unfold price_min. destruct (Qle_bool a b) eqn:Hle.
  - apply Qle_bool_iff in Hle. split; [by left|]. split; [apply Qle_refl|done].
  - assert (¬ (a <= b)%Q) as Hnle.
    { intros Hab%Qle_bool_iff. congruence. }
    apply Qnot_le_lt, Qlt_le_weak in Hnle.
    split; [by right|]. split; [done|apply Qle_refl].
Qed.

Lemma fold_price_max x rest : is_max (fold_left price_max rest x) (x :: rest).
Proof.
  revert x. induction rest as [|y rest IH]; intros x; simpl.
  { split; [left|]. intros z ->%list_elem_of_singleton. apply Qle_refl. }
  destruct (IH (price_max x y)) as [Hin Hub].
  destruct (price_max_spec x y) as (Hsel & Hx & Hy).
  split.
  - apply elem_of_cons in Hin as [-> | Hin].
    + destruct Hsel as [-> | ->]; [left | right; left].
    + by do 2 right.
  - intros z [-> | [-> | Hz]%elem_of_cons]%elem_of_cons.
    + eapply Qle_trans; [exact Hx|]. apply Hub. left.
    + eapply Qle_trans; [exact Hy|]. apply Hub. left.
    + apply Hub. by right.
Qed.

Lemma fold_price_min x rest : is_min (fold_left price_min rest x) (x :: rest).
Proof.
  revert x. induction rest as [|y rest IH]; intros x; simpl.
  { split; [left|]. intros z ->%list_elem_of_singleton. apply Qle_refl. }
  destruct (IH (price_min x y)) as [Hin Hlb].
  destruct (price_min_spec x y) as (Hsel & Hx & Hy).
  split.
  - apply elem_of_cons in Hin as [-> | Hin].
    + destruct Hsel as [-> | ->]; [left | right; left].
    + by do 2 right.
  - intros z [-> | [-> | Hz]%elem_of_cons]%elem_of_cons.
    + eapply Qle_trans; [|exact Hx]. apply Hlb. left.
    + eapply Qle_trans; [|exact Hy]. apply Hlb. left.
    + apply Hlb. by right.
Qed.

Lemma agg_max_spec col m : agg_max col = Some m → is_max m col.
Proof.
  destruct col as [|x rest]; simpl; [done|].
  intros [= <-]. apply fold_price_max.
Qed.

Lemma agg_min_spec col m : agg_min col = Some m → is_min m col.
Proof.
  destruct col as [|x rest]; simpl; [done|].
  intros [= <-]. apply fold_price_min.
Qed.

Lemma wrap64_int64 z : int64 z → wrap64 z = z.
Proof.
  unfold int64, wrap64. intros Hz. rewrite Z.mod_small by lia. lia.
Qed.

Lemma wrap64_range z : int64 (wrap64 z).
Proof.
  unfold int64, wrap64.
  pose proof (Z.mod_pos_bound (z + 2 ^ 63) (2 ^ 64) ltac:(lia)). lia.
Qed.

Lemma wrap64_divide z : (2 ^ 64 | wrap64 z - z).
Proof.
  unfold wrap64. exists (- ((z + 2 ^ 63) / 2 ^ 64)).
  pose proof (Z.div_mod (z + 2 ^ 63) (2 ^ 64) ltac:(lia)). lia.
Qed.

Lemma wrap64_add a b : wrap64 (wrap64 a + b) = wrap64 (a + b).
Proof.
  destruct (wrap64_divide a) as [k Hk].
  replace (wrap64 a + b) with (a + b + k * 2 ^ 64) by lia.
  unfold wrap64.
  replace (a + b + k * 2 ^ 64 + 2 ^ 63) with (a + b + 2 ^ 63 + k * 2 ^ 64)
    by lia.
  by rewrite Z.mod_add by lia.
Qed.

(** Further cells added in int64 to a first sum: the plain sum, brought
    back to the int64 range. *)
Lemma fold_add64 x y rest :
  fold_left add64 (y :: rest) x = wrap64 (x + y + foldr Z.add 0 rest).
Proof.
  revert x y. induction rest as [|z rest IH]; intros x y.
  { simpl. unfold add64. f_equal. lia. }
  change (fold_left add64 (y :: z :: rest) x)
    with (fold_left add64 (z :: rest) (add64 x y)).
  rewrite IH. unfold add64.
  replace (wrap64 (x + y) + z + foldr Z.add 0 rest)
    with (wrap64 (x + y) + (z + foldr Z.add 0 rest)) by lia.
  by rewrite wrap64_add.
Qed.

Lemma agg_sum_divide col : (2 ^ 64 | agg_sum col - total col).
Proof.
  destruct col as [|x [|y rest]].
  - by exists 0.
  - exists 0. unfold total. simpl. lia.
  - unfold agg_sum. rewrite fold_add64.
    replace (total (x :: y :: rest)) with (x + y + foldr Z.add 0 rest)
      by (unfold total; simpl; lia).
    apply wrap64_divide.
Qed.

(** On int64 cells the sum is the plain sum brought back to int64. *)
Lemma agg_sum_wrap col :
  Forall int64 col → agg_sum col = wrap64 (total col).
Proof.
  destruct col as [|x [|y rest]]; intros Hcells.
  - symmetry. by apply wrap64_int64.
  - apply Forall_cons in Hcells as [Hx _].
    change (total [x]) with (x + 0). rewrite Z.add_0_r.
    symmetry. by apply wrap64_int64.
  - unfold agg_sum. rewrite fold_add64. f_equal. unfold total. simpl. lia.
Qed.

(** On int64 cells it is the sum numpy accumulates from 0. *)
Lemma agg_sum_from_zero col :
  Forall int64 col → agg_sum col = fold_left add64 col 0.
Proof.
  destruct col as [|x rest]; [done|]. intros [Hx _]%Forall_cons.
  change (fold_left add64 (x :: rest) 0)
    with (fold_left add64 rest (add64 0 x)).
  unfold agg_sum. f_equal. unfold add64. symmetry. by apply wrap64_int64.
Qed.

(** It is the plain sum when that one is in the int64 range. *)
Lemma agg_sum_exact col : int64 (total col) → agg_sum col = total col.
Proof.
  destruct col as [|x [|y rest]]; intros Hsum.
  - done.
  - unfold total. simpl. lia.
  - unfold agg_sum. rewrite fold_add64.
    replace (x + y + foldr Z.add 0 rest) with (total (x :: y :: rest))
      by (unfold total; simpl; lia).
    by apply wrap64_int64.
Qed.

(** The volume cell of a row of the answer. *)
Lemma complete_row_volume label bars r :
  complete_row (agg_bin label bars) = Some r →
  Volume r = agg_sum (Volume <$> bars).
Proof.
  unfold complete_row, agg_bin. simpl.
  destruct (agg_first (Open <$> bars)) as [o|]; [|done].
  destruct (agg_max (High <$> bars)) as [h|]; [|done].
  destruct (agg_min (Low <$> bars)) as [l|]; [|done].
  destruct (agg_last (Close <$> bars)) as [c|]; [|done].
  by intros [= <-].
Qed.

(** A bin survives [dropna] exactly when it has rows, and then its row
    carries the five aggregates under the label of the bin. *)
Lemma complete_row_Some label bars r :
  complete_row (agg_bin label bars) = Some r →
  bars ≠ [] ∧ Datetime r = label ∧ aggregates bars r.
Proof.
  unfold complete_row, agg_bin. simpl.
  destruct (agg_first (Open <$> bars)) as [o|] eqn:Ho; [|done].
  destruct (agg_max (High <$> bars)) as [h|] eqn:Hh; [|done].
  destruct (agg_min (Low <$> bars)) as [l|] eqn:Hl; [|done].
  destruct (agg_last (Close <$> bars)) as [c|] eqn:Hc; [|done].
  intros [= <-]. split; [by destruct bars|]. split; [done|].
  constructor; simpl.
  - unfold agg_first in Ho. by destruct bars.
  - unfold agg_last in Hc. by rewrite <- fmap_last.
  - by apply agg_max_spec.
  - by apply agg_min_spec.
  - apply agg_sum_wrap.
  - apply agg_sum_exact.
Qed.

Lemma complete_row_nonempty label bars :
  bars ≠ [] → ∃ r, complete_row (agg_bin label bars) = Some r.
Proof.
  intros Hne. destruct bars as [|b bars]; [done|].
  unfold complete_row, agg_bin, agg_first, agg_max, agg_min. simpl.
  destruct (agg_last (Close b :: list_fmap Bar Q Close bars))
    as [c|] eqn:Hlast.
  - eauto.
  - unfold agg_last in Hlast. by apply last_None in Hlast.
Qed.

End AggFacts.

(** ** Bins *)

Section BinFacts.

Lemma bucket_label_div w origin t :
  0 < w → bucket_label w origin t = origin + w * ((t - origin) / w).
Proof.
  intros Hw. unfold bucket_label.
  pose proof (Z.div_mod (t - origin) w ltac:(lia)). lia.
Qed.

Lemma bucket_label_bounds w origin t :
  0 < w → bucket_label w origin t ≤ t < bucket_label w origin t + w.
Proof.
  intros Hw. unfold bucket_label.
  pose proof (Z.mod_pos_bound (t - origin) w Hw). lia.
Qed.

(** A left edge that is a whole number of widths away from the origin and
    whose bin holds [t] is the label of [t]. *)
Lemma bucket_label_unique w origin t q :
  0 < w → origin + w * q ≤ t < origin + w * q + w →
  origin + w * q = bucket_label w origin t.
Proof.
  intros Hw Ht. rewrite bucket_label_div by done.
  assert ((t - origin) / w = q) as ->; [|done].
  symmetry. apply (Z.div_unique _ _ _ (t - origin - w * q)); lia.
Qed.

(** With a width that divides the day, the label does not depend on the
    day the bins are counted from. *)
Lemma bucket_label_day_aligned w first t :
  0 < w → (w | day_minutes) →
  bucket_label w (normalize first) t = t - t mod w.
Proof.
  intros Hw [k Hk]. unfold bucket_label, normalize. f_equal.
  pose proof (Z.div_mod first day_minutes ltac:(done)) as Hfirst.
  replace (t - (first - first mod day_minutes))
    with (t + (- (first / day_minutes) * k) * w) by lia.
  apply Z_mod_plus_full.
Qed.

Lemma bin_range_spec w first last :
  0 < w →
  bin_range w first last
  = (bucket_label w (normalize first) first,
     bucket_label w (normalize first) last + w).
Proof.
  intros Hw. unfold bin_range, bucket_label.
  pose proof (Z.mod_pos_bound (first - normalize first) w Hw).
  pose proof (Z.mod_pos_bound (last - normalize first) w Hw).
  repeat case_decide; f_equal; lia.
Qed.

(** The labels are the left edges from the bin of the first timestamp to
    the bin of the last one. *)
Lemma elem_of_bin_labels w first rest label :
  0 < w →
  let origin := normalize first in
  let final := List.last (first :: rest) first in
  label ∈ bin_labels w (first :: rest) ↔
  ∃ q, (first - origin) / w ≤ q ≤ (final - origin) / w ∧
       label = origin + w * q.
Proof.
  intros Hw origin final. unfold bin_labels.
  rewrite bin_range_spec by done. fold origin final.
  rewrite !bucket_label_div by done.
  set (q1 := (first - origin) / w). set (q2 := (final - origin) / w).
  replace (origin + w * q2 + w - (origin + w * q1))
    with ((q2 - q1 + 1) * w) by lia.
  rewrite Z.div_mul by lia.
  rewrite list_elem_of_fmap. setoid_rewrite elem_of_seqZ. split.
  - intros (i & -> & Hi). exists (q1 + i). split; lia.
  - intros (q & Hq & ->). exists (q - q1). split; lia.
Qed.

Lemma last_default (x : Z) l d1 d2 :
  List.last (x :: l) d1 = List.last (x :: l) d2.
Proof.
  revert x. induction l as [|y l IH]; intros x; [done|].
  change (List.last (x :: y :: l) d1) with (List.last (y :: l) d1).
  change (List.last (x :: y :: l) d2) with (List.last (y :: l) d2).
  apply IH.
Qed.

Lemma sorted_head_last (first : Z) rest t :
  StronglySorted Z.lt (first :: rest) → t ∈ first :: rest →
  first ≤ t ≤ List.last (first :: rest) first.
Proof.
  revert first t.
  induction rest as [|x rest IH]; intros first t Hsorted Hin.
  { apply list_elem_of_singleton in Hin as ->. simpl. lia. }
  apply StronglySorted_inv in Hsorted as [Hrest Hall].
  assert (first < x) as Hfx.
  { rewrite Forall_forall in Hall. apply Hall. left. }
  change (List.last (first :: x :: rest) first)
    with (List.last (x :: rest) first).
  rewrite (last_default x rest first x).
  apply elem_of_cons in Hin as [-> | Hin].
  - pose proof (IH x x Hrest ltac:(left)). lia.
  - pose proof (IH x t Hrest Hin). lia.
Qed.

(** In an ascending index every timestamp has its label among the bins. *)
Lemma bucket_label_in_bin_labels w first rest t :
  0 < w → StronglySorted Z.lt (first :: rest) → t ∈ first :: rest →
  bucket_label w (normalize first) t ∈ bin_labels w (first :: rest).
Proof.
  intros Hw Hsorted Hin. apply elem_of_bin_labels; [done|].
  destruct (sorted_head_last first rest t Hsorted Hin) as [Hlo Hhi].
  exists ((t - normalize first) / w). split.
  - split; apply Z.div_le_mono; lia.
  - by apply bucket_label_div.
Qed.

(** A label whose bin holds [t] is the label of [t]. *)
Lemma bin_label_holds w first rest label t :
  0 < w → label ∈ bin_labels w (first :: rest) →
  label ≤ t < label + w →
  label = bucket_label w (normalize first) t.
Proof.
  intros Hw (q & _ & ->)%elem_of_bin_labels Ht; [|done].
  by apply bucket_label_unique.
Qed.

(** Rows of the resampled frame, after [dropna]. *)
Lemma elem_of_resampled w rows r :
  r ∈ dropna (resample_agg w rows) ↔
  ∃ label, label ∈ bin_labels w (Datetime <$> rows) ∧
           complete_row (agg_bin label (bin_rows w label rows)) = Some r.
Proof.
  unfold dropna, resample_agg. rewrite list_elem_of_omap. split.
  - intros (a & (label & -> & Hlabel)%list_elem_of_fmap & Hr). eauto.
  - intros (label & Hlabel & Hr). eexists. split; [|exact Hr].
    apply list_elem_of_fmap. eauto.
Qed.

End BinFacts.

(** ** The composer as a whole *)

Section ComposerTheorems.
Context `{DateFormat}.

Abbreviation path := _get_db_path_for_date.

Lemma filter_sorted {A} (R : relation A) (P : A → Prop)
  `{∀ x, Decision (P x)} (l : list A) :
  StronglySorted R l → StronglySorted R (filter P l).
Proof.
  induction 1 as [|x l Hsorted IH Hall]; [constructor|].
  rewrite filter_cons. case_decide; [|done]. constructor; [done|].
  rewrite Forall_forall in *. intros y [_ Hy]%list_elem_of_filter. auto.
Qed.

Lemma filter_NoDup_singleton {A} `{EqDecision A} (x : A) (l : list A) :
  NoDup l → x ∈ l → filter (λ y, y = x) l = [x].
Proof.
  induction 1 as [|y l Hnotin Hnd IH]; [by intros ?%elem_of_nil|].
  rewrite filter_cons. intros [-> | Hin]%elem_of_cons.
  - rewrite decide_True by done. f_equal.
    clear IH Hnd. induction l as [|z l IH]; [done|].
    rewrite not_elem_of_cons in Hnotin. destruct Hnotin as [Hne Hnotin].
    rewrite filter_cons_False by done. by apply IH.
  - rewrite decide_False; [by apply IH|]. by intros ->.
Qed.

Lemma filter_omap {A B} (P : B → Prop) (Q : A → Prop)
  `{∀ y, Decision (P y)} `{∀ x, Decision (Q x)} (g : A → option B)
  (l : list A) :
  (∀ x y, g x = Some y → (P y ↔ Q x)) →
  filter P (omap g l) = omap g (filter Q l).
Proof.
  intros Hg. induction l as [|x l IH]; [done|]. simpl.
  rewrite (filter_cons Q). destruct (g x) as [y|] eqn:Hgx.
  - rewrite (filter_cons P). specialize (Hg x y Hgx).
    destruct (decide (Q x)) as [HQ|HQ].
    + rewrite decide_True by tauto. simpl. rewrite Hgx. f_equal. exact IH.
    + rewrite decide_False by tauto. exact IH.
  - destruct (decide (Q x)); simpl; rewrite ?Hgx; exact IH.
Qed.

Lemma omap_fmap_compose {A B C} (f : A → B) (g : B → option C)
  (l : list A) :
  omap g (f <$> l) = omap (λ x, g (f x)) l.
Proof.
  induction l as [|x l IH]; [done|]. csimpl. by rewrite IH.
Qed.

Lemma bin_labels_NoDup w index : 0 < w → NoDup (bin_labels w index).
Proof.
  intros Hw. unfold bin_labels. destruct index as [|first rest].
  { constructor. }
  destruct (bin_range w first (List.last (first :: rest) first)) as [lo hi].
  apply NoDup_fmap_2; [|apply NoDup_seqZ].
  intros i j Hij. nia.
Qed.

(** What a query returns for a well-formed timeframe. *)
Lemma buscar_dados_Ok n start end_date dir out :
  buscar_dados (Minutes n) start end_date dir = Ok out →
  out = dropna (resample_agg (Z.pos n)
                  (merge_frames (lista_dfs start end_date dir))).
Proof.
  unfold buscar_dados. destruct (lista_dfs start end_date dir).
  - by intros [= <-].
  - by intros [= <-].
Qed.

Lemma merged_index_sorted dfs :
  StronglySorted Z.lt (Datetime <$> merge_frames dfs).
Proof.
  apply (StronglySorted_fmap _ index_lt); [|apply merge_frames_sorted].
  by intros a b.
Qed.

(** A row of the answer is the aggregate of the rows of its own bin. *)
Lemma answer_row_bin n dfs r :
  r ∈ dropna (resample_agg (Z.pos n) (merge_frames dfs)) →
  Datetime r ∈ bin_labels (Z.pos n) (Datetime <$> merge_frames dfs) ∧
  bin_rows (Z.pos n) (Datetime r) (merge_frames dfs) ≠ [] ∧
  aggregates (bin_rows (Z.pos n) (Datetime r) (merge_frames dfs)) r.
Proof.
  intros (label & Hlabel & Hrow)%elem_of_resampled.
  apply complete_row_Some in Hrow as (Hne & <- & Hagg). done.
Qed.

(** Every row of the merged series lies in the bin of a row of the
    answer, the one labelled by its bucket. *)
Lemma merged_row_has_bin n dfs first b :
  head (merge_frames dfs) = Some first → b ∈ merge_frames dfs →
  ∃ r, r ∈ dropna (resample_agg (Z.pos n) (merge_frames dfs)) ∧
       Datetime r
       = bucket_label (Z.pos n) (normalize (Datetime first)) (Datetime b).
Proof.
  intros Hhead Hb.
  pose proof (merged_index_sorted dfs) as Hsorted.
  apply head_Some in Hhead as [rest Hrows]. rewrite Hrows in *.
  rewrite fmap_cons in Hsorted.
  set (label := bucket_label (Z.pos n) (normalize (Datetime first))
                  (Datetime b)).
  assert (label ∈ bin_labels (Z.pos n) (Datetime <$> first :: rest))
    as Hlabel.
  { rewrite fmap_cons. apply bucket_label_in_bin_labels; [lia|done|].
    rewrite <- fmap_cons. apply list_elem_of_fmap. eauto. }
  destruct (complete_row_nonempty label
              (bin_rows (Z.pos n) label (first :: rest))) as [r Hr].
  { intros Hnil. eapply (filter_nil_not_elem_of _ _ b); [exact Hnil| |done].
    apply bucket_label_bounds. lia. }
  exists r. split.
  - apply elem_of_resampled. eauto.
  - by apply complete_row_Some in Hr as (_ & ? & _).
Qed.

(** C1, as the code has it: every row [r] of the answer of a query at [n]
    minutes stands for the rows of the merged series from [Datetime r] to
    less than [n] minutes later, which are at least one; with these taken
    in ascending time, its open is the open of the first, its close the
    close of the last, its high a largest high and its low a smallest low;
    its volume is their int64 sum, that is the sum of the volumes brought
    back to the range from -2^63 to 2^63 - 1, and the sum itself when the
    sum is in that range.  Every row of the merged series is counted in a
    row of the answer.  The five bars of the example, resampled at five
    minutes, give the one row open 10, high 10.6, low 9.8, close 10.4,
    volume 325 at 09:00. *)
Theorem resample_rows_aggregate_bins :
  (∀ n start end_date dir out,
     buscar_dados (Minutes n) start end_date dir = Ok out →
     let dados_1m := merge_frames (lista_dfs start end_date dir) in
     (∀ r, r ∈ out →
        let bars :=
          filter (λ b, Datetime r ≤ Datetime b < Datetime r + Z.pos n)
            dados_1m in
        bars ≠ [] ∧ StronglySorted index_lt bars ∧ aggregates bars r) ∧
     (∀ b, b ∈ dados_1m →
        ∃ r, r ∈ out ∧ Datetime r ≤ Datetime b < Datetime r + Z.pos n)) ∧
  buscar_dados (Minutes 5) example_day example_day
    {[ path example_day := Database (Some example_bars) ]}
  = Ok [mkBar (midnight example_day + 540) (10#1) (53#5) (49#5) (52#5) 325].
Proof.
  split.
  - intros n start end_date dir out ->%buscar_dados_Ok dados_1m. split.
    + intros r Hr bars.
      apply answer_row_bin in Hr as (_ & Hne & Hagg).
      split; [done|]. split; [|done].
      apply filter_sorted, merge_frames_sorted.
    + intros b Hb.
      destruct (head dados_1m) as [first|] eqn:Hhead.
      2: { apply head_None in Hhead. rewrite Hhead in Hb.
           by apply elem_of_nil in Hb. }
      destruct (merged_row_has_bin n _ first b Hhead Hb) as (r & Hr & Heq).
      exists r. split; [done|]. rewrite Heq. apply bucket_label_bounds. lia.
  - assert (lista_dfs example_day example_day
              {[ path example_day := Database (Some example_bars) ]}
            = [example_bars]) as Hread.
    { rewrite lista_dfs_spec.
      replace (example_day - example_day + 1) with 1 by lia.
      change (seqZ example_day 1) with [example_day].
      cbn [omap list_omap].
      unfold day_frame, read_sql_query. by rewrite lookup_singleton_eq. }
    unfold buscar_dados. rewrite Hread. vm_compute. reflexivity.
Qed.



(** With bins one minute wide the answer has, at a timestamp of the
    merged series, the very row of the series. *)
Lemma one_minute_answer dfs b :
  rows_at (Datetime b) (merge_frames dfs) = [b] →
  rows_at (Datetime b) (dropna (resample_agg 1 (merge_frames dfs))) = [b].
Proof.
  intros Hat.
  assert (b ∈ merge_frames dfs) as Hb.
  { assert (b ∈ rows_at (Datetime b) (merge_frames dfs)) as Hin.
    { rewrite Hat. left. }
    by apply list_elem_of_filter in Hin as [_ ?]. }
  destruct (merge_frames dfs) as [|first rest] eqn:Hrows.
  { by apply elem_of_nil in Hb. }
  pose proof (merged_index_sorted dfs) as Hsorted.
  rewrite Hrows, fmap_cons in Hsorted.
  assert (Datetime b ∈ bin_labels 1 (Datetime <$> first :: rest)) as Hlabel.
  { replace (Datetime b)
      with (bucket_label 1 (normalize (Datetime first)) (Datetime b)) at 1.
    - rewrite fmap_cons. apply bucket_label_in_bin_labels; [lia|done|].
      rewrite <- fmap_cons. apply list_elem_of_fmap. eauto.
    - unfold bucket_label. rewrite Z.mod_1_r. lia. }
  unfold rows_at at 1, dropna, resample_agg. rewrite omap_fmap_compose.
  rewrite (filter_omap _ (λ label, label = Datetime b)).
  2: { intros label r Hr. simpl in Hr.
       by apply complete_row_Some in Hr as (_ & -> & _). }
  rewrite filter_NoDup_singleton;
    [|by apply bin_labels_NoDup|done].
  simpl.
  assert (bin_rows 1 (Datetime b) (first :: rest) = [b]) as ->.
  { rewrite <- Hat. unfold bin_rows, rows_at.
    apply list_filter_iff. intros c. unfold in_bin. lia. }
  destruct b. reflexivity.
Qed.


Lemma omap_filter_is_Some {A B} (f : A → option B) (l : list A) :
  omap f l = omap f (filter (λ x, is_Some (f x)) l).
Proof.
  induction l as [|x l IH]; [done|]. rewrite filter_cons.
  destruct (decide (is_Some (f x))) as [[y Hfx]|Hnone]; csimpl.
  - by rewrite Hfx, IH.
  - destruct (f x) as [y|] eqn:Hfx; [|done]. destruct Hnone. by exists y.
Qed.

Lemma seqZ_sorted m n : StronglySorted Z.le (seqZ m n).
Proof.
  remember (Z.to_nat n) as k eqn:Hk. revert m n Hk.
  induction k as [|k IH]; intros m n Hk.
  { rewrite seqZ_nil by lia. constructor. }
  rewrite seqZ_cons by lia. constructor.
  - apply IH. lia.
  - apply Forall_forall. intros x Hx%elem_of_seqZ. lia.
Qed.

(** Two ranges that take in the same readable days read the same frames. *)
Lemma lista_dfs_same_stores s1 e1 s2 e2 dir :
  (∀ d, is_Some (day_frame dir d) → (s1 ≤ d ≤ e1 ↔ s2 ≤ d ≤ e2)) →
  lista_dfs s1 e1 dir = lista_dfs s2 e2 dir.
Proof.
  intros Hsame. rewrite !lista_dfs_spec.
  rewrite (omap_filter_is_Some _ (seqZ s1 _)).
  rewrite (omap_filter_is_Some _ (seqZ s2 _)).
  f_equal. apply (StronglySorted_unique Z.le).
  - apply filter_sorted, seqZ_sorted.
  - apply filter_sorted, seqZ_sorted.
  - apply NoDup_Permutation.
    + apply NoDup_filter, NoDup_seqZ.
    + apply NoDup_filter, NoDup_seqZ.
    + intros d. rewrite !list_elem_of_filter, !elem_of_seqZ.
      split; intros [Hd Hin]; (split; [done|]);
        specialize (Hsame d Hd); lia.
Qed.

(** C4, as the code has it: the bins of an answer are counted from
    midnight of the day of the earliest row read, in steps of the width
    of the timeframe.  So two queries with the same timeframe whose ranges
    take in the same readable stores give the same answer; every row read
    falls in the bin of one row of the answer, whose left edge is a whole
    number of widths after that midnight; and when the width divides the
    day that edge is [t - t mod w], fixed by the timestamp and the width
    alone, whatever the range. *)
Theorem buckets_counted_from_first_day n start end_date dir out :
  buscar_dados (Minutes n) start end_date dir = Ok out →
  let w := Z.pos n in
  let dados_1m := merge_frames (lista_dfs start end_date dir) in
  (∀ start' end_date',
     (∀ d, is_Some (day_frame dir d) →
        (start ≤ d ≤ end_date ↔ start' ≤ d ≤ end_date')) →
     buscar_dados (Minutes n) start' end_date' dir = Ok out) ∧
  (∀ b, b ∈ dados_1m → ∃ r, r ∈ out ∧ in_bin w (Datetime r) b) ∧
  (∀ first b r,
     head dados_1m = Some first → b ∈ dados_1m → r ∈ out →
     in_bin w (Datetime r) b →
     Datetime r = bucket_label w (normalize (Datetime first)) (Datetime b)) ∧
  ((w | day_minutes) →
   ∀ b r, b ∈ dados_1m → r ∈ out → in_bin w (Datetime r) b →
     Datetime r = Datetime b - Datetime b mod w).
Proof.
  intros Hout w dados_1m.
  assert (∀ first b r,
     head dados_1m = Some first → b ∈ dados_1m → r ∈ out →
     in_bin w (Datetime r) b →
     Datetime r = bucket_label w (normalize (Datetime first)) (Datetime b))
    as Hlabel.
  { intros first b r Hhead Hb Hr Hbin.
    apply buscar_dados_Ok in Hout. rewrite Hout in Hr.
    apply answer_row_bin in Hr as (Hin & _ & _). fold dados_1m in Hin.
    apply head_Some in Hhead as [rest Hrows]. rewrite Hrows in Hin.
    rewrite fmap_cons in Hin.
    by apply (bin_label_holds w _ (Datetime <$> rest)). }
  split; [|split; [|split]].
  - intros start' end_date' Hsame. rewrite <- Hout. unfold buscar_dados.
    by rewrite (lista_dfs_same_stores start end_date start' end_date' dir).
  - intros b Hb.
    destruct (head dados_1m) as [first|] eqn:Hhead.
    2: { apply head_None in Hhead. rewrite Hhead in Hb.
         by apply elem_of_nil in Hb. }
    destruct (merged_row_has_bin n _ first b Hhead Hb) as (r & Hr & Heq).
    exists r. split.
    + apply buscar_dados_Ok in Hout. by rewrite Hout.
    + unfold in_bin. rewrite Heq. apply bucket_label_bounds. lia.
  - done.
  - intros Hdiv b r Hb Hr Hbin.
    destruct (head dados_1m) as [first|] eqn:Hhead.
    2: { apply head_None in Hhead. rewrite Hhead in Hb.
         by apply elem_of_nil in Hb. }
    rewrite (Hlabel first b r) by done.
    apply bucket_label_day_aligned; [lia|done].
Qed.

(** A row of the merged series comes from the store of a day of the
    range. *)
Lemma merged_row_origin start end_date dir b :
  b ∈ merge_frames (lista_dfs start end_date dir) →
  ∃ d rows, start ≤ d ≤ end_date ∧ day_frame dir d = Some rows ∧ b ∈ rows.
Proof.
  intros Hb%elem_of_merge_frames. apply head_Some_elem_of in Hb.
  apply list_elem_of_filter in Hb as [_ Hb].
  unfold concat_frames in Hb. apply list_elem_of_In, in_concat in Hb.
  destruct Hb as (rows & Hrows%list_elem_of_In & Hin%list_elem_of_In).
  rewrite lista_dfs_spec in Hrows.
  apply list_elem_of_omap in Hrows as (d & Hd%elem_of_seqZ & Hread).
  exists d, rows. split; [lia|done].
Qed.

(** Every row of a readable store of the range has a row with its
    timestamp in the merged series. *)
Lemma stored_row_merged start end_date dir e rows b :
  start ≤ e ≤ end_date → day_frame dir e = Some rows → b ∈ rows →
  ∃ b', b' ∈ merge_frames (lista_dfs start end_date dir) ∧
        Datetime b' = Datetime b.
Proof.
  intros He Hrows Hb.
  assert (b ∈ rows_at (Datetime b)
                (concat_frames (lista_dfs start end_date dir))) as Hat.
  { apply list_elem_of_filter. split; [done|].
    unfold concat_frames. apply list_elem_of_In, in_concat.
    exists rows. split; apply list_elem_of_In; [|done].
    rewrite lista_dfs_spec. apply list_elem_of_omap. exists e.
    split; [|done]. apply elem_of_seqZ. lia. }
  destruct (rows_at (Datetime b)
              (concat_frames (lista_dfs start end_date dir)))
    as [|b' rest] eqn:Hrows_at.
  { by apply elem_of_nil in Hat. }
  assert (b' ∈ rows_at (Datetime b)
                 (concat_frames (lista_dfs start end_date dir))) as Hb'
    by (rewrite Hrows_at; left).
  apply list_elem_of_filter in Hb' as [Hts _].
  exists b'. split; [|done].
  apply elem_of_merge_frames. by rewrite Hts, Hrows_at.
Qed.

(** C9: a query with a well-formed timeframe returns, whatever files of
    the range are missing or cannot be read.  Every row of every store of
    the range that can be read is counted in a row of the answer, and
    every row of the answer stands for such rows.  A file that is missing,
    is not a database or has no table contributes nothing, and weighs as
    much as a missing one: the answer, or the exception, is the one the
    query gives with that file deleted. *)
Theorem query_skips_unreadable_day start end_date dir :
  (∀ n, ∃ out,
     buscar_dados (Minutes n) start end_date dir = Ok out ∧
     (∀ e rows b,
        start ≤ e ≤ end_date → day_frame dir e = Some rows → b ∈ rows →
        ∃ r, r ∈ out ∧ Datetime r ≤ Datetime b < Datetime r + Z.pos n) ∧
     (∀ r, r ∈ out →
        ∃ e rows b,
          start ≤ e ≤ end_date ∧ day_frame dir e = Some rows ∧ b ∈ rows ∧
          Datetime r ≤ Datetime b < Datetime r + Z.pos n)) ∧
  (∀ d, dir !! path d = None ∨ dir !! path d = Some NotADatabase ∨
        dir !! path d = Some (Database None) ↔ day_frame dir d = None) ∧
  (∀ timeframe d, day_frame dir d = None →
     buscar_dados timeframe start end_date dir
     = buscar_dados timeframe start end_date (delete (path d) dir)).
Proof.
  split; [|split].
  - intros n.
    assert (∃ out, buscar_dados (Minutes n) start end_date dir = Ok out)
      as [out Hout].
    { unfold buscar_dados. destruct (lista_dfs start end_date dir); eauto. }
    exists out. split; [done|]. apply buscar_dados_Ok in Hout as ->. split.
    + intros e rows b He Hrows Hb.
      destruct (stored_row_merged start end_date dir e rows b)
        as (b' & Hb' & Hts); [done..|].
      destruct (head (merge_frames (lista_dfs start end_date dir)))
        as [first|] eqn:Hhead.
      2: { apply head_None in Hhead. rewrite Hhead in Hb'.
           by apply elem_of_nil in Hb'. }
      destruct (merged_row_has_bin n _ first b' Hhead Hb') as (r & Hr & Heq).
      exists r. split; [done|]. rewrite Heq, <- Hts.
      apply bucket_label_bounds. lia.
    + intros r Hr. apply answer_row_bin in Hr as (_ & Hne & _).
      destruct (bin_rows (Z.pos n) (Datetime r)
                  (merge_frames (lista_dfs start end_date dir)))
        as [|b bars] eqn:Hbars; [done|].
      assert (b ∈ bin_rows (Z.pos n) (Datetime r)
                    (merge_frames (lista_dfs start end_date dir))) as Hb
        by (rewrite Hbars; left).
      apply list_elem_of_filter in Hb as [Hbin Hb].
      apply merged_row_origin in Hb as (e & rows & He & Hrows & Hin).
      by exists e, rows, b.
  - intros d. unfold day_frame, read_sql_query.
    destruct (dir !! path d) as [[|[rows|]]|]; split; try done;
      try (by intros [?|[?|?]]); eauto.
  - intros timeframe d Hnone. unfold buscar_dados. rewrite !lista_dfs_spec.
    assert (omap (day_frame (delete (path d) dir))
              (seqZ start (end_date - start + 1))
            = omap (day_frame dir) (seqZ start (end_date - start + 1)))
      as ->; [|done].
    apply list_omap_ext. apply Forall_Forall2_diag, Forall_forall.
    intros e _. by apply day_frame_delete.
Qed.

End ComposerTheorems.

(** * Concrete runs *)

(** ** The ISO names are a [DateFormat] *)

(** The days of a year, by evaluation. *)
Definition month_day_ok (leapyear : bool) (n : Z) : bool :=
  let '(m, d) := month_day leapyear n in
  (1 <=? m) && (m <=? 12) && (1 <=? d)
  && (d <=? (if (m =? 2) && leapyear then 29 else DAYS_IN_MONTH m))
  && (DAYS_BEFORE_MONTH m + (if (2 <? m) && leapyear then 1 else 0) + d
      =? n + 1).

Fixpoint all_from (fuel : nat) (r : Z) (f : Z → bool) : bool :=
  match fuel with
  | O => true
  | S fuel' => f r && all_from fuel' (r + 1) f
  end.

Section GregorianFacts.

Lemma all_from_spec fuel r f x :
  all_from fuel r f = true → r ≤ x < r + Z.of_nat fuel → f x = true.
Proof.
  revert r. induction fuel as [|fuel IH]; intros r; simpl; [lia|].
  intros [Hr Hrest]%andb_prop Hx.
  destruct (decide (x = r)) as [->|]; [done|]. apply (IH (r + 1)); [done|lia].
Qed.

Lemma month_day_year leapyear n :
  0 ≤ n < 365 → month_day_ok leapyear n = true.
Proof.
  intros Hn.
  assert (all_from 365 0 (month_day_ok true) = true) as Hleap
    by (vm_compute; reflexivity).
  assert (all_from 365 0 (month_day_ok false) = true) as Hcommon
    by (vm_compute; reflexivity).
  destruct leapyear.
  - apply (all_from_spec _ 0 _ n Hleap). lia.
  - apply (all_from_spec _ 0 _ n Hcommon). lia.
Qed.

Lemma is_leap_true y :
  is_leap y = true ↔ y mod 4 = 0 ∧ (y mod 100 ≠ 0 ∨ y mod 400 = 0).
Proof.
  unfold is_leap.
  rewrite andb_true_iff, orb_true_iff, negb_true_iff, !Z.eqb_eq, Z.eqb_neq.
  done.
Qed.

(** [_ord2ymd] gives a valid date, of which [_ymd2ord] is the ordinal. *)
Lemma ord2ymd_spec n :
  min_ordinal ≤ n ≤ max_ordinal →
  ∃ y m d, ord2ymd n = (y, m, d) ∧ valid_date y m d = true ∧
           ymd2ord y m d = n.
Proof.
  unfold min_ordinal, max_ordinal. intros Hn. unfold ord2ymd.
  set (a := n - 1).
  set (n400 := a / 146097). set (r1 := a mod 146097).
  set (n100 := r1 / 36524). set (r2 := r1 mod 36524).
  set (n4 := r2 / 1461). set (r3 := r2 mod 1461).
  set (n1 := r3 / 365). set (r4 := r3 mod 365).
  cbv zeta.
  assert (a = 146097 * n400 + r1 ∧ 0 ≤ r1 < 146097) as [Ha Hr1].
  { subst n400 r1. Z.div_mod_to_equations. lia. }
  assert (r1 = 36524 * n100 + r2 ∧ 0 ≤ r2 < 36524) as [Hr1' Hr2].
  { subst n100 r2. Z.div_mod_to_equations. lia. }
  assert (r2 = 1461 * n4 + r3 ∧ 0 ≤ r3 < 1461) as [Hr2' Hr3].
  { subst n4 r3. Z.div_mod_to_equations. lia. }
  assert (r3 = 365 * n1 + r4 ∧ 0 ≤ r4 < 365) as [Hr3' Hr4].
  { subst n1 r4. Z.div_mod_to_equations. lia. }
  clearbody n400 r1 n100 r2 n4 r3 n1 r4.
  assert (0 ≤ n400 ≤ 24 ∧ 0 ≤ n100 ≤ 4 ∧ 0 ≤ n4 ≤ 24 ∧ 0 ≤ n1 ≤ 4)
    as (H400 & H100 & H4 & H1) by lia.
  destruct ((n1 =? 4) || (n100 =? 4)) eqn:Hlast.
  - (* the last day of a leap year *)
    apply orb_true_iff in Hlast. rewrite !Z.eqb_eq in Hlast.
    set (y := n400 * 400 + 1 + n100 * 100 + n4 * 4 + n1 - 1).
    assert (is_leap y = true) as Hleap.
    { apply is_leap_true. subst y. Z.div_mod_to_equations. lia. }
    exists y, 12, 31. split; [done|]. split.
    + unfold valid_date, days_in_month. rewrite Hleap. simpl.
      rewrite !andb_true_r. apply andb_true_iff.
      rewrite !Z.leb_le. subst y. lia.
    + unfold ymd2ord, days_before_month, days_before_year. rewrite Hleap.
      simpl. subst y. Z.div_mod_to_equations. lia.
  - apply orb_false_iff in Hlast. rewrite !Z.eqb_neq in Hlast.
    set (leapyear := (n1 =? 3) && (negb (n4 =? 24) || (n100 =? 3))).
    set (y := n400 * 400 + 1 + n100 * 100 + n4 * 4 + n1).
    assert (is_leap y = leapyear) as Hleap.
    { apply eq_true_iff_eq. rewrite is_leap_true. subst leapyear.
      rewrite andb_true_iff, orb_true_iff, negb_true_iff, !Z.eqb_eq,
        Z.eqb_neq.
      subst y. Z.div_mod_to_equations. lia. }
    pose proof (month_day_year leapyear r4 Hr4) as Hok.
    unfold month_day_ok in Hok.
    destruct (month_day leapyear r4) as [m d].
    repeat (apply andb_prop in Hok as [Hok ?]).
    exists y, m, d. split; [done|]. split.
    + unfold valid_date, days_in_month. rewrite Hleap.
      repeat (apply andb_true_intro; split); try done.
      * apply Z.leb_le. subst y. lia.
      * apply Z.leb_le. subst y. lia.
    + unfold ymd2ord, days_before_month, days_before_year. rewrite Hleap.
      cbv zeta.
      assert (DAYS_BEFORE_MONTH m
              + (if (2 <? m) && leapyear then 1 else 0) + d = r4 + 1)
        as Hday by lia.
      subst y. Z.div_mod_to_equations. lia.
Qed.

End GregorianFacts.

Section IsoFormatFacts.

Lemma digit_cases a : 0 ≤ a ≤ 9 →
  a = 0 ∨ a = 1 ∨ a = 2 ∨ a = 3 ∨ a = 4 ∨ a = 5 ∨ a = 6 ∨ a = 7 ∨ a = 8
  ∨ a = 9.
Proof. lia. Qed.

Lemma digit_value_char a : 0 ≤ a ≤ 9 → digit_value (digit_char a) = Some a.
Proof.
  intros Ha%digit_cases.
  repeat (destruct Ha as [-> | Ha]; [reflexivity|]). by subst.
Qed.

Lemma digit_char_not_hash a :
  0 ≤ a ≤ 9 → Ascii.eqb (digit_char a) "#" = false.
Proof.
  intros Ha%digit_cases.
  repeat (destruct Ha as [-> | Ha]; [reflexivity|]). by subst.
Qed.

Lemma parse_format_ymd y m d :
  0 ≤ y ≤ 9999 → 0 ≤ m ≤ 99 → 0 ≤ d ≤ 99 →
  parse_ymd (format_ymd (y, m, d)) = Some (y, m, d).
Proof.
  intros Hy Hm Hd. unfold format_ymd, parse_ymd.
  rewrite !digit_value_char by (Z.div_mod_to_equations; lia). simpl.
  do 2 f_equal; [f_equal|]; Z.div_mod_to_equations; lia.
Qed.

Lemma valid_date_bounds y m d :
  valid_date y m d = true → 1 ≤ y ≤ 9999 ∧ 1 ≤ m ≤ 12 ∧ 1 ≤ d ≤ 31.
Proof.
  unfold valid_date. intros Hv.
  repeat (apply andb_prop in Hv as [Hv ?]).
  assert (1 ≤ m ≤ 12) as Hm by lia.
  assert (days_in_month y m ≤ 31) as Hdim.
  { unfold days_in_month.
    assert (m = 1 ∨ m = 2 ∨ m = 3 ∨ m = 4 ∨ m = 5 ∨ m = 6 ∨ m = 7 ∨ m = 8
            ∨ m = 9 ∨ m = 10 ∨ m = 11 ∨ m = 12) as Hc by lia.
    repeat (destruct Hc as [-> | Hc]; [by destruct (is_leap y)|]).
    subst. by destruct (is_leap y). }
  lia.
Qed.

Lemma iso_strptime_digit s c rest :
  s = String c rest → Ascii.eqb c "#" = false →
  iso_strptime s = parse_date s.
Proof. intros -> Hc. unfold iso_strptime. by rewrite Hc. Qed.

(** The name written for a day reads back as that day. *)
Lemma iso_strptime_strftime d : iso_strptime (iso_strftime d) = Some d.
Proof.
  unfold iso_strftime.
  destruct ((min_ordinal <=? d) && (d <=? max_ordinal)) eqn:Hrange.
  - apply andb_prop in Hrange as [Hlo Hhi].
    destruct (ord2ymd_spec d) as (y & m & dd & -> & Hvalid & Hord); [lia|].
    destruct (valid_date_bounds y m dd Hvalid) as (Hy & Hm & Hdd).
    erewrite iso_strptime_digit;
      [|reflexivity|apply digit_char_not_hash; Z.div_mod_to_equations; lia].
    unfold parse_date. rewrite parse_format_ymd by lia. simpl.
    by rewrite Hvalid, Hord.
  - unfold iso_strptime. simpl. rewrite NilEmpty.isi. simpl.
    by rewrite DecimalZ.of_to.
Qed.

End IsoFormatFacts.

(** The program is run below with the ISO names. *)
#[local] Instance iso_names : DateFormat := {|
  strftime := iso_strftime;
  strptime := iso_strptime;
  strptime_strftime := iso_strptime_strftime
|}.

Module Runs.

(** Monday 2024-01-08 has ordinal 738893. *)
Definition monday : date := 738893.
Definition tuesday : date := 738894.
Definition friday : date := 738897.
Definition saturday : date := 738898.

Definition one_bar (t : Z) : frame := [mkBar t (10#1) (10#1) (10#1) (10#1) 1].

Example monday_file : _get_db_path_for_date monday = "2024-01-08"%string.
Proof. reflexivity. Qed.

Example monday_weekday : weekday monday = 0.
Proof. reflexivity. Qed.

(** A provider with nothing for the Monday (a holiday) and one bar at
    10:00 for every other day. *)
Definition holiday_monday (d : date) : frame :=
  if decide (d = monday) then [] else one_bar (midnight d + 600).

(** The directory after a first run on the Saturday, from nothing. *)
Definition after_first_run : directory :=
  cache (sincronizar_dados_historicos holiday_monday saturday ∅).

End Runs.
Import Runs.

(** C3, refuted as stated: the Monday is a weekday, a run on the Saturday
    asks for it and gets nothing, so it has no store; the later days of
    the week get theirs.  A second run, on the Saturday or on any of the
    ten days after it, does not ask for the Monday again. *)
Lemma empty_day_not_retried :
  weekday monday < 5 ∧
  monday ∈ fetched (sincronizar_dados_historicos holiday_monday saturday ∅) ∧
  holiday_monday monday = [] ∧
  after_first_run !! _get_db_path_for_date monday = None ∧
  is_Some (after_first_run !! _get_db_path_for_date tuesday) ∧
  Forall (λ today,
            monday ∉ fetched (sincronizar_dados_historicos holiday_monday
                                today after_first_run))
         (seqZ saturday 10).
Proof.
  split; [done|]. split; [compute_done|]. split; [reflexivity|].
  split; [by vm_compute|]. split; compute_done.
Qed.

(** The amended C3 on two runs.  A run on the Tuesday from nothing leaves
    the Monday without a store and the cursor on the Friday before it: the
    run of the Wednesday asks for the Monday again.  After the run of the
    Saturday the cursor is the Friday, past the Monday, and a run two days
    later does not ask for the Monday. *)
Lemma sync_retries_inside_window_run :
  let tuesday_run :=
    cache (sincronizar_dados_historicos holiday_monday tuesday ∅) in
  weekday monday < 5 ∧
  tuesday_run !! _get_db_path_for_date monday = None ∧
  _get_ultima_data_db tuesday_run = Some (monday - 3) ∧
  monday ∈ fetched (sincronizar_dados_historicos holiday_monday
                      (tuesday + 1) tuesday_run) ∧
  _get_ultima_data_db after_first_run = Some friday ∧
  monday ∉ fetched (sincronizar_dados_historicos holiday_monday
                      (saturday + 2) after_first_run).
Proof.
  intros tuesday_run.
  assert (weekday monday < 5) as Hw by reflexivity.
  assert (_get_ultima_data_db tuesday_run = Some (monday - 3)) as Hc1
    by (vm_compute; reflexivity).
  assert (_get_ultima_data_db after_first_run = Some friday) as Hc2
    by (vm_compute; reflexivity).
  split; [exact Hw|]. split; [by vm_compute|]. split; [exact Hc1|].
  destruct (sync_retries_inside_window holiday_monday (tuesday + 1)
              tuesday_run monday Hw) as (_ & Hretry & _).
  destruct (Hretry (monday - 3) Hc1) as (_ & _ & Hasked).
  destruct (sync_retries_inside_window holiday_monday (saturday + 2)
              after_first_run monday Hw) as (_ & Hpast & _).
  destruct (Hpast friday Hc2) as (_ & _ & Hnot).
  split; [|split; [exact Hc2|]].
  - apply Hasked. unfold monday, tuesday. lia.
  - intros Hin%Hnot. unfold monday, friday in Hin. lia.
Defined.

Module StrayFile.

(** The directory of the first run with one more file, [notes.sqlite3],
    and with other rows in the store of the Tuesday. *)
Definition stale : frame := one_bar (midnight tuesday + 615).
Definition with_notes : directory :=
  <["notes"%string := Database None]>
    (<[_get_db_path_for_date tuesday := Database (Some stale)]>
       after_first_run).

End StrayFile.
Import StrayFile.

(** C10 on that directory: the stores of Tuesday to Friday are there, yet
    there is no cursor, the run starts six days back, asks for the Tuesday
    again and replaces the rows of its store. *)
Lemma sync_restarts_on_bad_name_run :
  is_Some (with_notes !! "notes"%string) ∧
  strptime "notes" = None ∧
  with_notes !! _get_db_path_for_date tuesday = Some (Database (Some stale)) ∧
  is_Some (with_notes !! _get_db_path_for_date friday) ∧
  _get_ultima_data_db with_notes = None ∧
  data_inicial saturday with_notes = saturday - 6 ∧
  tuesday ∈ fetched (sincronizar_dados_historicos holiday_monday saturday
                       with_notes) ∧
  cache (sincronizar_dados_historicos holiday_monday saturday with_notes)
    !! _get_db_path_for_date tuesday
  = Some (Database (Some (holiday_monday tuesday))).
Proof.
  assert (is_Some (with_notes !! "notes"%string)) as Hfile by compute_done.
  assert (strptime "notes" = None) as Hname by reflexivity.
  split; [exact Hfile|]. split; [exact Hname|].
  split; [vm_compute; reflexivity|]. split; [compute_done|].
  destruct (sync_restarts_on_bad_name holiday_monday saturday with_notes
              "notes" Hfile Hname) as (Hcursor & Hstart & _ & _ & Hwindow).
  split; [exact Hcursor|]. split; [exact Hstart|].
  destruct Hwindow as [Hsame Hrewrite].
  { intros d Hd.
    assert (d = saturday - 6 ∨ d = saturday - 5 ∨ d = saturday - 4
            ∨ d = saturday - 3 ∨ d = saturday - 2 ∨ d = saturday - 1)
      as Hcases by lia.
    repeat (destruct Hcases as [-> | Hcases]; [by vm_compute|]).
    subst d. by vm_compute. }
  split.
  - rewrite Hsame. compute_done.
  - apply Hrewrite.
    + unfold tuesday, saturday. lia.
    + reflexivity.
    + discriminate.
Defined.

Module Overlap.



End Overlap.
Import Overlap.


Module TwoBins.

(** The five bars of the example and a sixth at 09:05. *)
Definition sixth_bar : Bar :=
  mkBar (midnight example_day + 545) (52#5) (11#1) (52#5) (54#5) 30.
Definition six_bars : frame := example_bars ++ [sixth_bar].
Definition six_dir : directory :=
  {[ _get_db_path_for_date example_day := Database (Some six_bars) ]}.

(** Two bars of the same five minutes whose volumes are 2^62 each. *)
Definition huge_bars : frame :=
  [ mkBar (midnight monday + 540) (10#1) (10#1) (10#1) (10#1) (2 ^ 62);
    mkBar (midnight monday + 541) (10#1) (10#1) (10#1) (10#1) (2 ^ 62) ].
Definition huge_dir : directory :=
  {[ _get_db_path_for_date monday := Database (Some huge_bars) ]}.

End TwoBins.
Import TwoBins.

(** C1, refuted as stated: the two bars are the bars of one bin, their
    volumes are int64 values and add up to 2^63, and the volume of the
    row of the answer is -2^63. *)
Lemma volume_sum_wraps :
  Forall int64 (Volume <$> huge_bars) ∧
  merge_frames (lista_dfs monday monday huge_dir) = huge_bars ∧
  total (Volume <$> huge_bars) = 2 ^ 63 ∧
  buscar_dados (Minutes 5) monday monday huge_dir
  = Ok [mkBar (midnight monday + 540) (10#1) (10#1) (10#1) (10#1) (- 2 ^ 63)].
Proof.
  split; [|split; [|split]].
  - repeat constructor; unfold int64; simpl; lia.
  - by vm_compute.
  - reflexivity.
  - by vm_compute.
Qed.

(** The amended C1 on the six bars: two bins, and the row of 09:00 stands
    for the five bars before 09:05. *)
Lemma resample_rows_aggregate_bins_run :
  let r := mkBar (midnight example_day + 540) (10#1) (53#5) (49#5) (52#5) 325 in
  let bars :=
    filter (λ b, Datetime r ≤ Datetime b < Datetime r + 5)
      (merge_frames (lista_dfs example_day example_day six_dir)) in
  buscar_dados (Minutes 5) example_day example_day six_dir
  = Ok [r; sixth_bar] ∧
  bars = example_bars ∧
  bars ≠ [] ∧ StronglySorted index_lt bars ∧ aggregates bars r.
Proof.
  intros r bars.
  assert (buscar_dados (Minutes 5) example_day example_day six_dir
          = Ok [r; sixth_bar]) as Hout by (by vm_compute).
  split; [exact Hout|]. split; [by vm_compute|].
  destruct resample_rows_aggregate_bins as [Hrows _].
  destruct (Hrows 5%positive example_day example_day six_dir _ Hout)
    as [Hagg _].
  apply (Hagg r). left.
Defined.

Module TwoDays.

(** One bar at 09:00 on the Monday and one at 09:00 on the Tuesday. *)
Definition nine_monday : Bar :=
  mkBar (midnight monday + 540) (10#1) (10#1) (10#1) (10#1) 1.
Definition nine_tuesday : Bar :=
  mkBar (midnight tuesday + 540) (11#1) (11#1) (11#1) (11#1) 2.

Definition two_days : directory :=
  {[ _get_db_path_for_date monday := Database (Some [nine_monday]);
     _get_db_path_for_date tuesday := Database (Some [nine_tuesday]) ]}.

End TwoDays.
Import TwoDays.

(** C4, refuted as stated: with a timeframe of seven minutes, the bar of
    Tuesday 09:00 falls in the bin from 08:59 when the range is the Tuesday
    alone, and in the bin from 08:54 when the range is Monday to Tuesday,
    though both ranges contain the day of the bar. *)
Lemma bucket_depends_on_range :
  date_of_timestamp (Datetime nine_tuesday) = tuesday ∧
  buscar_dados (Minutes 7) tuesday tuesday two_days
  = Ok [mkBar (midnight tuesday + 539) (11#1) (11#1) (11#1) (11#1) 2] ∧
  buscar_dados (Minutes 7) monday tuesday two_days
  = Ok [mkBar (midnight monday + 539) (10#1) (10#1) (10#1) (10#1) 1;
        mkBar (midnight tuesday + 534) (11#1) (11#1) (11#1) (11#1) 2] ∧
  in_bin 7 (midnight tuesday + 539) nine_tuesday ∧
  in_bin 7 (midnight tuesday + 534) nine_tuesday.
Proof.
  split; [reflexivity|]. split; [by vm_compute|]. split; [by vm_compute|].
  split; compute_done.
Qed.

(** The amended C4 on the same two days, at thirty minutes. *)
Lemma buckets_counted_from_first_day_run :
  buscar_dados (Minutes 30) monday tuesday two_days
  = Ok [mkBar (midnight monday + 540) (10#1) (10#1) (10#1) (10#1) 1;
        mkBar (midnight tuesday + 540) (11#1) (11#1) (11#1) (11#1) 2] ∧
  buscar_dados (Minutes 30) (monday - 3) (tuesday + 1) two_days
  = Ok [mkBar (midnight monday + 540) (10#1) (10#1) (10#1) (10#1) 1;
        mkBar (midnight tuesday + 540) (11#1) (11#1) (11#1) (11#1) 2].
Proof.
  assert (buscar_dados (Minutes 30) monday tuesday two_days
          = Ok [mkBar (midnight monday + 540) (10#1) (10#1) (10#1) (10#1) 1;
                mkBar (midnight tuesday + 540) (11#1) (11#1) (11#1) (11#1) 2])
    as Hout by (by vm_compute).
  split; [done|].
  apply (buckets_counted_from_first_day 30 monday tuesday two_days _ Hout).
  intros d Hd.
  assert (d = monday ∨ d = tuesday) as Hday.
  { destruct (decide (d = monday)) as [|Hm]; [by left|].
    destruct (decide (d = tuesday)) as [|Ht]; [by right|].
    exfalso. destruct Hd as [rows Hrows].
    unfold day_frame, read_sql_query, two_days in Hrows.
    rewrite lookup_insert_ne in Hrows;
      [|intros Heq%db_path_inj; congruence].
    rewrite lookup_singleton_ne in Hrows;
      [|intros Heq%db_path_inj; congruence].
    discriminate Hrows. }
  unfold monday, tuesday in *. lia.
Defined.

Module Damaged.

(** The two days again, with a Wednesday file that is not a database. *)
Definition damaged : directory :=
  <[_get_db_path_for_date (tuesday + 1) := NotADatabase]> two_days.

End Damaged.
Import Damaged.

(** The directory with one store, whose table has no row. *)
Definition empty_table : directory :=
  {[ _get_db_path_for_date monday := Database (Some []) ]}.

(** C8, refuted as stated: the only store of the directory holds no row,
    so no store of the range is populated; at five minutes the query
    returns the empty frame, and with a timeframe pandas rejects it
    raises. *)
Lemma empty_store_malformed_raises :
  (∀ d rows, day_frame empty_table d = Some rows → rows = []) ∧
  buscar_dados (Minutes 5) monday monday empty_table = Ok [] ∧
  buscar_dados Malformed monday monday empty_table = Raise.
Proof.
  split; [|split; reflexivity].
  intros d rows. unfold day_frame, read_sql_query, empty_table.
  destruct (decide (d = monday)) as [->|Hne].
  - rewrite lookup_singleton_eq. by intros [= <-].
  - rewrite lookup_singleton_ne; [done|].
    intros Heq%db_path_inj. congruence.
Qed.

(** The amended C8 on a range that holds the damaged file and no other,
    and on the store without rows. *)
Lemma query_empty_range_returns_empty_run :
  (∀ d, tuesday + 1 ≤ d ≤ tuesday + 2 → day_frame damaged d = None) ∧
  buscar_dados Malformed (tuesday + 1) (tuesday + 2) damaged = Ok [] ∧
  is_Some (day_frame empty_table monday) ∧
  buscar_dados Malformed monday monday empty_table = Raise.
Proof.
  assert (∀ d, tuesday + 1 ≤ d ≤ tuesday + 2 → day_frame damaged d = None)
    as Hnone.
  { intros d Hd.
    assert (d = tuesday + 1 ∨ d = tuesday + 2) as [-> | ->] by lia;
      reflexivity. }
  assert (is_Some (day_frame empty_table monday)) as Hsome
    by (exists []; reflexivity).
  split; [exact Hnone|]. split; [|split; [exact Hsome|]].
  - destruct (query_empty_range_returns_empty (tuesday + 1) (tuesday + 2)
                damaged) as (Hempty & _ & _).
    exact (Hempty Hnone Malformed).
  - destruct (query_empty_range_returns_empty monday monday empty_table)
      as (_ & _ & Hraise).
    apply (Hraise monday); [lia|exact Hsome].
Defined.

(** C9 on the damaged directory: the query over the three days returns,
    the bar of the Tuesday is counted in a row of the answer, and the
    answer is the one over the two good files alone. *)
Lemma query_skips_unreadable_day_run :
  damaged !! _get_db_path_for_date (tuesday + 1) = Some NotADatabase ∧
  day_frame damaged (tuesday + 1) = None ∧
  (∃ out,
     buscar_dados (Minutes 30) monday (tuesday + 1) damaged = Ok out ∧
     ∃ r, r ∈ out ∧
          Datetime r ≤ Datetime nine_tuesday < Datetime r + 30) ∧
  buscar_dados (Minutes 30) monday (tuesday + 1) damaged
  = buscar_dados (Minutes 30) monday (tuesday + 1)
      (delete (_get_db_path_for_date (tuesday + 1)) damaged).
Proof.
  assert (damaged !! _get_db_path_for_date (tuesday + 1) = Some NotADatabase)
    as Hfile by (by vm_compute).
  destruct (query_skips_unreadable_day monday (tuesday + 1) damaged)
    as (Hanswer & Hskip & Hdelete).
  assert (day_frame damaged (tuesday + 1) = None) as Hnone.
  { apply Hskip. right. left. exact Hfile. }
  split; [exact Hfile|]. split; [exact Hnone|]. split.
  - destruct (Hanswer 30%positive) as (out & Hout & Hcounted & _).
    exists out. split; [exact Hout|].
    apply (Hcounted tuesday [nine_tuesday] nine_tuesday).
    + unfold monday, tuesday. lia.
    + reflexivity.
    + left.
  - exact (Hdelete (Minutes 30) (tuesday + 1) Hnone).
Defined.

(** * Further properties of the code *)

(** ** The daily file: creating the table, writing and reading *)

Section StoreProperties.
Context `{DateFormat}.


(** X2: what the synchroniser writes for a day is what the composer reads
    for that day.  After [_ensure_table_exists], [to_sql] cannot raise;
    the file then holds the new rows and nothing of what it held, and the
    read of every other day is what it was. *)
Theorem written_day_reads_back novos_dados d dir dir1 :
  _ensure_table_exists (_get_db_path_for_date d) dir = Ok dir1 →
  ∃ dir2,
    to_sql novos_dados (_get_db_path_for_date d) dir1 = Ok dir2 ∧
    dir2 = <[_get_db_path_for_date d := Database (Some novos_dados)]> dir ∧
    day_frame dir2 d = Some novos_dados ∧
    (∀ e, e ≠ d → day_frame dir2 e = day_frame dir e).
Proof.
  intros Hensure.
  exists (<[_get_db_path_for_date d := Database (Some novos_dados)]> dir).
  assert (to_sql novos_dados (_get_db_path_for_date d) dir1
          = Ok (<[_get_db_path_for_date d := Database (Some novos_dados)]>
                  dir)) as Hwrite.
  { unfold _ensure_table_exists, to_sql in *.
    destruct (dir !! _get_db_path_for_date d) as [[|[old|]]|] eqn:Hfile;
      try discriminate; injection Hensure as <-.
    - by rewrite Hfile.
    - by rewrite lookup_insert_eq, insert_insert_eq.
    - by rewrite lookup_insert_eq, insert_insert_eq. }
  split; [done|]. split; [done|]. unfold day_frame, read_sql_query. split.
  - by rewrite lookup_insert_eq.
  - intros e Hne. rewrite lookup_insert_ne; [done|].
    intros Heq%db_path_inj. congruence.
Qed.

Lemma cursor_latest dir c :
  _get_ultima_data_db dir = Some c ↔
  (∃ stem, is_Some (dir !! stem) ∧ strptime stem = Some c) ∧
  (∀ stem, is_Some (dir !! stem) → ∃ d, strptime stem = Some d ∧ d ≤ c).
Proof.
  split.
  - intros Hc. apply cursor_Some in Hc as [Hall Hsome]. done.
  - intros [(stem & Hstem & Hparse) Hall].
    destruct (cursor_is_Some dir) as [c' Hc'].
    { intros ->. rewrite lookup_empty in Hstem. by destruct Hstem. }
    { intros name Hname. destruct (Hall name Hname) as (d & -> & _). done. }
    destruct (cursor_Some dir c' Hc') as [Hall' (stem' & Hstem' & Hparse')].
    destruct (Hall' stem Hstem) as (d1 & Hd1 & Hle1).
    destruct (Hall stem' Hstem') as (d2 & Hd2 & Hle2).
    rewrite Hparse in Hd1. rewrite Hparse' in Hd2.
    injection Hd1 as <-. injection Hd2 as <-.
    rewrite Hc'. f_equal. lia.
Qed.

(** X3: the cursor is [c] exactly when some file is named for the day [c]
    and every file is named for a day, none later than [c]. *)
Theorem cursor_is_latest_file dir c :
  _get_ultima_data_db dir = Some c ↔
  (∃ stem, is_Some (dir !! stem) ∧ strptime stem = Some c) ∧
  (∀ stem, is_Some (dir !! stem) → ∃ d, strptime stem = Some d ∧ d ≤ c).
Proof. apply cursor_latest. Qed.

(** X4: writing the file of a day moves the cursor to that day when it is
    later than the cursor, and gives a first cursor to an empty directory;
    it does not give a cursor to a directory that holds a file whose name
    is not a date. *)
Theorem cursor_after_write d file dir :
  (∀ c, _get_ultima_data_db dir = Some c →
     _get_ultima_data_db (<[_get_db_path_for_date d := file]> dir)
     = Some (Z.max c d)) ∧
  (dir = ∅ →
     _get_ultima_data_db (<[_get_db_path_for_date d := file]> dir)
     = Some d) ∧
  (_get_ultima_data_db dir = None → dir ≠ ∅ →
     _get_ultima_data_db (<[_get_db_path_for_date d := file]> dir) = None).
Proof.
  assert (strptime (_get_db_path_for_date d) = Some d) as Hd.
  { apply strptime_strftime. }
  split; [|split].
  - intros c Hc. apply cursor_Some in Hc as [Hall (stem & Hstem & Hparse)].
    apply cursor_latest. split.
    + destruct (Z.max_spec c d) as [[Hlt ->] | [Hle ->]].
      * exists (_get_db_path_for_date d). by rewrite lookup_insert_eq.
      * exists stem. split; [|done]. rewrite lookup_insert.
        by case_decide.
    + intros name. rewrite lookup_insert. case_decide as Hname.
      * subst name. intros _. exists d. split; [done|lia].
      * intros Hold. destruct (Hall name Hold) as (e & He & Hle).
        exists e. split; [done|lia].
  - intros ->. apply cursor_latest. split.
    + exists (_get_db_path_for_date d). by rewrite lookup_insert_eq.
    + intros name. rewrite lookup_insert. case_decide as Hname.
      * subst name. intros _. exists d. split; [done|lia].
      * rewrite lookup_empty. by intros [? ?].
  - intros Hnone Hne.
    apply cursor_None in Hnone as [-> | (stem & Hstem & Hbad)]; [done|].
    apply cursor_None. right. exists stem. split; [|done].
    rewrite lookup_insert. by case_decide.
Qed.

End StoreProperties.

(** ** More on a run of the synchroniser *)

Section SyncProperties.
Context `{DateFormat}.
Variable yf_download : date → frame.

Abbreviation sync_day' := (sync_day yf_download).
Abbreviation sync_while' := (sync_while yf_download).
Abbreviation sync := (sincronizar_dados_historicos yf_download).
Abbreviation path := _get_db_path_for_date.

(** A file after the loop is as before, or holds the answer for its day. *)
Lemma sync_while_cache_cases fuel cur fin st name :
  cache (sync_while' fuel cur fin st) !! name = cache st !! name ∨
  ∃ d, cur ≤ d < fin ∧ name = path d ∧ weekday d < 5 ∧
       yf_download d ≠ [] ∧
       cache (sync_while' fuel cur fin st) !! name
       = Some (Database (Some (yf_download d))).
Proof.
  revert cur st. induction fuel as [|fuel IH]; intros cur st; simpl.
  { by left. }
  destruct (raised st); [by left|]. case_decide as Hlt; [|by left].
  destruct (IH (cur + 1) (sync_day' cur st))
    as [Hsame | (d & Hd & Hname & Hw & Hne & Hfile)].
  - rewrite Hsame.
    destruct (sync_day_cases yf_download cur st)
      as [Hw|Hw He|Hw Hne Hf|Hw Hne Hf]; simpl; try by left.
    destruct (decide (name = path cur)) as [->|Hname].
    + right. exists cur. rewrite lookup_insert_eq.
      repeat split; try done; lia.
    + left. by rewrite lookup_insert_ne.
  - right. exists d. repeat split; try done; lia.
Qed.

(** The days asked for come in ascending order. *)
Lemma sync_while_fetched_sorted fuel cur fin st :
  ∃ asked,
    fetched (sync_while' fuel cur fin st) = fetched st ++ asked ∧
    StronglySorted Z.lt asked ∧ Forall (λ d, cur ≤ d < fin) asked.
Proof.
  revert cur st. induction fuel as [|fuel IH]; intros cur st; simpl.
  { exists []. rewrite app_nil_r. repeat constructor. }
  destruct (raised st).
  { exists []. rewrite app_nil_r. repeat constructor. }
  case_decide as Hlt.
  2: { exists []. rewrite app_nil_r. repeat constructor. }
  destruct (IH (cur + 1) (sync_day' cur st)) as (asked & -> & Hsorted & Hall).
  rewrite sync_day_fetched, <- app_assoc. eexists. split; [done|].
  assert (Forall (λ d, cur ≤ d < fin) asked) as Hall'.
  { eapply Forall_impl; [done|]. simpl. intros d. lia. }
  case_decide; simpl; [|done]. split.
  - constructor; [done|]. eapply Forall_impl; [exact Hall|].
    simpl. intros d. lia.
  - constructor; [lia|done].
Qed.

Lemma weekdays_from_nil cur : weekdays_from cur cur = [].
Proof. unfold weekdays_from. by rewrite seqZ_nil by lia. Qed.

(** Where the loop raises: on the first day of the window whose answer
    cannot be written; the days before it are done, the days from it on
    are untouched. *)
Lemma sync_while_failure fuel cur fin st :
  raised st = false →
  raised (sync_while' fuel cur fin st) = true →
  ∃ d, cur ≤ d < fin ∧ weekday d < 5 ∧ yf_download d ≠ [] ∧
    cache st !! path d = Some NotADatabase ∧
    fetched (sync_while' fuel cur fin st)
      = fetched st ++ weekdays_from cur (d + 1) ∧
    (∀ e, cur ≤ e < d → weekday e < 5 → yf_download e ≠ [] →
       cache (sync_while' fuel cur fin st) !! path e
       = Some (Database (Some (yf_download e)))) ∧
    (∀ e, d ≤ e →
       cache (sync_while' fuel cur fin st) !! path e = cache st !! path e).
Proof.
  revert cur st. induction fuel as [|fuel IH]; intros cur st Hst; simpl.
  { congruence. }
  rewrite Hst. case_decide as Hlt; [|congruence].
  intros Hr.
  destruct (sync_day_cases yf_download cur st)
    as [Hw|Hw Hempty|Hw Hne Hf|Hw Hne Hf].
  - destruct (IH _ _ Hst Hr) as (d & Hd & Hwd & Hned & Hfile & Hasked & Hdone
                                   & Hrest).
    exists d. split; [lia|]. split; [done|]. split; [done|].
    split; [done|]. split; [|split].
    + rewrite Hasked, (weekdays_from_cons cur (d + 1)) by lia.
      by rewrite decide_False by done.
    + intros e He Hwe Hnee. destruct (decide (e = cur)) as [->|]; [done|].
      apply Hdone; [lia|done..].
    + done.
  - set (st1 := mkSync (cache st) (fetched st ++ [cur]) false) in *.
    destruct (IH (cur + 1) st1 eq_refl Hr)
      as (d & Hd & Hwd & Hned & Hfile & Hasked & Hdone & Hrest).
    exists d. split; [lia|]. split; [done|]. split; [done|].
    split; [done|]. split; [|split].
    + rewrite Hasked, (weekdays_from_cons cur (d + 1)) by lia.
      rewrite decide_True by done. simpl. by rewrite <- app_assoc.
    + intros e He Hwe Hnee. destruct (decide (e = cur)) as [->|]; [done|].
      apply Hdone; [lia|done..].
    + done.
  - set (st1 := mkSync (cache st) (fetched st ++ [cur]) true) in *.
    assert (sync_while' fuel (cur + 1) fin st1 = st1) as ->.
    { by destruct fuel. }
    exists cur. split; [lia|]. split; [done|]. split; [done|].
    split; [done|]. simpl. split; [|split].
    + rewrite (weekdays_from_cons cur (cur + 1)) by lia.
      rewrite decide_True by done. by rewrite weekdays_from_nil.
    + intros e He. lia.
    + done.
  - set (st1 := mkSync (<[path cur := Database (Some (yf_download cur))]>
                          (cache st)) (fetched st ++ [cur]) false) in *.
    destruct (IH (cur + 1) st1 eq_refl Hr)
      as (d & Hd & Hwd & Hned & Hfile & Hasked & Hdone & Hrest).
    simpl in Hfile.
    rewrite lookup_insert_ne in Hfile by (intros Heq%db_path_inj; lia).
    exists d. split; [lia|]. split; [done|]. split; [done|].
    split; [done|]. split; [|split].
    + rewrite Hasked, (weekdays_from_cons cur (d + 1)) by lia.
      rewrite decide_True by done. simpl. by rewrite <- app_assoc.
    + intros e He Hwe Hnee. destruct (decide (e = cur)) as [->|Hec].
      * rewrite sync_while_cache_other.
        -- by apply lookup_insert_eq.
        -- intros e' He' Heq%db_path_inj. lia.
      * apply Hdone; [lia|done..].
    + intros e He. rewrite Hrest by done. simpl.
      apply lookup_insert_ne. intros Heq%db_path_inj. lia.
Qed.

Lemma sync_cache_cases today dir name :
  cache (sync today dir) !! name = dir !! name ∨
  ∃ d, data_inicial today dir ≤ d < today ∧ name = path d ∧
       weekday d < 5 ∧ yf_download d ≠ [] ∧
       cache (sync today dir) !! name
       = Some (Database (Some (yf_download d))).
Proof.
  rewrite sync_unfold. case_decide; simpl; [by left|].
  apply (sync_while_cache_cases _ _ _ (mkSync dir [] false)).
Qed.

(** Six days in a row hold four or five weekdays. *)
Lemma weekdays_of_six_days today :
  let n := length (weekdays_from (today - 6) today) in (4 ≤ n ≤ 5)%nat.
Proof.
  cbv zeta.
  unfold weekdays_from. replace (today - (today - 6)) with 6 by lia.
  do 6 (rewrite seqZ_cons by lia; simpl Z.pred). rewrite seqZ_nil by lia.
  rewrite !filter_cons, filter_nil. unfold weekday.
  repeat case_decide; simpl; Z.div_mod_to_equations; lia.
Qed.

Lemma sync_fetched_sorted today dir :
  StronglySorted Z.lt (fetched (sync today dir)).
Proof.
  rewrite sync_unfold. case_decide; simpl; [constructor|].
  destruct (sync_while_fetched_sorted
              (Z.to_nat (today - data_inicial today dir))
              (data_inicial today dir) today (mkSync dir [] false))
    as (asked & -> & Hsorted & _).
  done.
Qed.

Lemma sync_fetched_NoDup today dir : NoDup (fetched (sync today dir)).
Proof.
  pose proof (sync_fetched_sorted today dir) as Hsorted.
  induction Hsorted as [|d l Hl IH Hall]; constructor; [|done].
  intros Hin. rewrite Forall_forall in Hall. specialize (Hall d Hin). lia.
Qed.

(** What the composer reads for a day after a run that completed. *)
Lemma sync_day_frame today dir d :
  raised (sync today dir) = false →
  day_frame (cache (sync today dir)) d
  = if decide (data_inicial today dir ≤ d < today ∧ weekday d < 5 ∧
               yf_download d ≠ [])
    then Some (yf_download d) else day_frame dir d.
Proof.
  intros Hr.
  destruct (sync_completed yf_download today dir Hr) as [_ Hfiles].
  unfold day_frame, read_sql_query. case_decide as Hd.
  - destruct Hd as (Hd & Hw & Hne). by rewrite Hfiles.
  - destruct (sync_cache_cases today dir (path d))
      as [-> | (e & He & Heq%db_path_inj & Hw & Hne & _)]; [done|].
    subst e. destruct Hd. done.
Qed.

(** X5: when every file is named for a day and the file of yesterday, or
    of a later day, is there, a run asks the provider for nothing and
    leaves the directory as it is. *)
Theorem sync_up_to_date_does_nothing today dir d :
  (∀ stem, is_Some (dir !! stem) → is_Some (strptime stem)) →
  today - 1 ≤ d → is_Some (dir !! _get_db_path_for_date d) →
  sincronizar_dados_historicos yf_download today dir = mkSync dir [] false.
Proof.
  intros Hnames Hd Hfile.
  destruct (cursor_is_Some dir) as [c Hc]; [|done|].
  { intros ->. rewrite lookup_empty in Hfile. by destruct Hfile. }
  destruct (cursor_Some dir c Hc) as [Hall _].
  destruct (Hall _ Hfile) as (e & He & Hle).
  unfold _get_db_path_for_date in He. rewrite strptime_strftime in He.
  injection He as <-.
  rewrite sync_unfold. unfold data_inicial. rewrite Hc.
  by rewrite decide_True by lia.
Qed.

(** X6: the provider is asked for the days of a run from the oldest to the
    newest, and for no day twice. *)
Theorem sync_asks_oldest_first today dir :
  let run := sincronizar_dados_historicos yf_download today dir in
  StronglySorted Z.lt (fetched run) ∧ NoDup (fetched run).
Proof. split; [apply sync_fetched_sorted | apply sync_fetched_NoDup]. Qed.

(** X7: every file of the directory after a run is the file it was, or is
    the file of a weekday of the window and holds the answer of the
    provider for that day, which is not empty.  A run deletes no file and
    leaves no store without rows. *)
Theorem sync_writes_only_answers today dir name :
  let run := sincronizar_dados_historicos yf_download today dir in
  cache run !! name = dir !! name ∨
  ∃ d, data_inicial today dir ≤ d < today ∧
       name = _get_db_path_for_date d ∧ weekday d < 5 ∧
       yf_download d ≠ [] ∧
       cache run !! name = Some (Database (Some (yf_download d))).
Proof. apply sync_cache_cases. Qed.

(** X8: a run from an empty directory, or from one whose files are all
    named for days, completes.  It asks for every weekday of its window;
    the window holds no file beforehand; and afterwards the composer reads,
    for a weekday of the window whose answer is not empty, that answer,
    and for any other day what it read before. *)
Theorem sync_fills_window today dir :
  dir = ∅ ∨ is_Some (_get_ultima_data_db dir) →
  let run := sincronizar_dados_historicos yf_download today dir in
  let start := data_inicial today dir in
  raised run = false ∧
  fetched run = weekdays_from start today ∧
  (∀ d, start ≤ d → dir !! _get_db_path_for_date d = None) ∧
  (∀ d, day_frame (cache run) d
        = if decide (start ≤ d < today ∧ weekday d < 5 ∧ yf_download d ≠ [])
          then Some (yf_download d) else day_frame dir d).
Proof.
  intros Hdir. cbv zeta.
  assert (raised (sync today dir) = false) as Hr.
  { by apply sync_completes_from_cursor. }
  destruct (sync_completed yf_download today dir Hr) as [Hasked Hfiles].
  split; [done|]. split; [done|]. split.
  - intros d Hd. destruct Hdir as [-> | [c Hc]]; [apply lookup_empty|].
    destruct (dir !! path d) as [file|] eqn:Hfile; [|done].
    apply cursor_Some in Hc as Hall. destruct Hall as [Hall _].
    destruct (Hall (path d)) as (e & He & Hle); [by rewrite Hfile|].
    unfold _get_db_path_for_date in He. rewrite strptime_strftime in He.
    injection He as <-. unfold data_inicial in Hd. rewrite Hc in Hd. lia.
  - intros d. by apply sync_day_frame.
Qed.

(** X9: when a run raises, it raises on a weekday of its window whose
    answer is not empty and whose file is not a database.  The provider
    has been asked for the weekdays up to that day and no further; the
    answers for the days before it are stored, each in its own file; and
    the files of that day and of the later days are as they were. *)
Theorem sync_failure_keeps_earlier_days today dir :
  let run := sincronizar_dados_historicos yf_download today dir in
  let start := data_inicial today dir in
  raised run = true →
  ∃ d, start ≤ d < today ∧ weekday d < 5 ∧ yf_download d ≠ [] ∧
    dir !! _get_db_path_for_date d = Some NotADatabase ∧
    fetched run = weekdays_from start (d + 1) ∧
    (∀ e, start ≤ e < d → weekday e < 5 → yf_download e ≠ [] →
       cache run !! _get_db_path_for_date e
       = Some (Database (Some (yf_download e)))) ∧
    (∀ e, d ≤ e →
       cache run !! _get_db_path_for_date e
       = dir !! _get_db_path_for_date e).
Proof.
  cbv zeta. rewrite sync_unfold. case_decide as Hge; simpl; [done|].
  intros Hr.
  by apply (sync_while_failure _ _ _ (mkSync dir [] false)) in Hr.
Qed.

(** X10: without a cursor a run asks the provider for five days at most;
    from an empty directory it asks for four days at least. *)
Theorem sync_bootstrap_asks_four_or_five today :
  (∀ dir, _get_ultima_data_db dir = None →
     let run := sincronizar_dados_historicos yf_download today dir in
     (length (fetched run) ≤ 5)%nat) ∧
  (let run := sincronizar_dados_historicos yf_download today ∅ in
   (4 ≤ length (fetched run))%nat).
Proof.
  cbv zeta. split.
  - intros dir Hc.
    transitivity (length (weekdays_from (today - 6) today)).
    2: { apply weekdays_of_six_days. }
    apply submseteq_length, NoDup_submseteq.
    + apply sync_fetched_NoDup.
    + intros d Hd%sync_fetched_window. apply elem_of_weekdays_from.
      unfold data_inicial in Hd. rewrite Hc in Hd. lia.
  - assert (raised (sync today ∅) = false) as Hr.
    { apply sync_completes_from_cursor. by left. }
    apply sync_completed in Hr as [-> _].
    assert (data_inicial today ∅ = today - 6) as ->.
    { unfold data_inicial.
      assert (_get_ultima_data_db ∅ = None) as ->; [|done].
      apply cursor_None. by left. }
    apply weekdays_of_six_days.
Qed.

(** X11: a run never moves the cursor back: the cursor after the run is
    the cursor before it, or a later weekday before [today] for which the
    provider had an answer. *)
Theorem sync_cursor_never_rewinds today dir c :
  _get_ultima_data_db dir = Some c →
  ∃ c',
    _get_ultima_data_db
      (cache (sincronizar_dados_historicos yf_download today dir)) = Some c' ∧
    (c' = c ∨ (c < c' < today ∧ weekday c' < 5 ∧ yf_download c' ≠ [])).
Proof.
  intros Hc.
  destruct (cursor_Some dir c Hc) as [Hall (stem & Hstem & Hparse)].
  assert (is_Some (_get_ultima_data_db (cache (sync today dir))))
    as [c' Hc'].
  { apply cursor_is_Some.
    - intros Hempty. apply (sync_cache_is_Some yf_download today) in Hstem.
      rewrite Hempty, lookup_empty in Hstem. by destruct Hstem.
    - intros name [Hold | (d & _ & ->)]%sync_cache_new.
      + destruct (Hall name Hold) as (e & -> & _). done.
      + unfold _get_db_path_for_date. by rewrite strptime_strftime. }
  exists c'. split; [done|].
  destruct (cursor_Some _ c' Hc') as [Hall' (stem' & Hstem' & Hparse')].
  destruct (Hall' stem) as (e & He & Hle).
  { by apply sync_cache_is_Some. }
  rewrite Hparse in He. injection He as <-.
  destruct (sync_cache_cases today dir stem')
    as [Hsame | (d & Hd & -> & Hw & Hne & _)].
  - rewrite Hsame in Hstem'. destruct (Hall stem' Hstem') as (e & He & Hle').
    rewrite Hparse' in He. injection He as <-. left. lia.
  - unfold _get_db_path_for_date in Hparse'.
    rewrite strptime_strftime in Hparse'. injection Hparse' as <-.
    unfold data_inicial in Hd. rewrite Hc in Hd. right.
    repeat split; try done; lia.
Qed.

End SyncProperties.

(** ** More on the answer of the composer *)

Section ComposerProperties.
Context `{DateFormat}.

Lemma seqZ_sorted_lt m n : StronglySorted Z.lt (seqZ m n).
Proof.
  remember (Z.to_nat n) as k eqn:Hk. revert m n Hk.
  induction k as [|k IH]; intros m n Hk.
  { rewrite seqZ_nil by lia. constructor. }
  rewrite seqZ_cons by lia. constructor.
  - apply IH. lia.
  - apply Forall_forall. intros x Hx%elem_of_seqZ. lia.
Qed.

Lemma bin_labels_sorted w index :
  0 < w → StronglySorted Z.lt (bin_labels w index).
Proof.
  intros Hw. unfold bin_labels. destruct index as [|first rest].
  { constructor. }
  destruct (bin_range w first (List.last (first :: rest) first)) as [lo hi].
  apply (StronglySorted_fmap _ Z.lt); [|apply seqZ_sorted_lt].
  intros i j Hij. nia.
Qed.

(** Rows made from ascending labels come in ascending order. *)
Lemma omap_labels_sorted (g : Z → option Bar) (labels : list Z) :
  (∀ label r, g label = Some r → Datetime r = label) →
  StronglySorted Z.lt labels → StronglySorted index_lt (omap g labels).
Proof.
  intros Hg. induction 1 as [|x l Hl IH Hall]; [constructor|]. csimpl.
  destruct (g x) as [r|] eqn:Hr; [|done]. constructor; [done|].
  apply Forall_forall. intros r' (y & Hy & Hr')%list_elem_of_omap.
  rewrite Forall_forall in Hall. specialize (Hall y Hy).
  unfold index_lt. rewrite (Hg _ _ Hr), (Hg _ _ Hr'). done.
Qed.

Lemma resampled_sorted n rows :
  StronglySorted index_lt (dropna (resample_agg (Z.pos n) rows)).
Proof.
  unfold dropna, resample_agg. rewrite omap_fmap_compose.
  apply omap_labels_sorted; [|apply bin_labels_sorted; lia].
  intros label r Hr. by apply complete_row_Some in Hr as (_ & ? & _).
Qed.

Lemma filter_ext_in {A} (P Q : A → Prop) `{∀ x, Decision (P x)}
  `{∀ x, Decision (Q x)} (l : list A) :
  (∀ x, x ∈ l → (P x ↔ Q x)) → filter P l = filter Q l.
Proof.
  induction l as [|x l IH]; intros Hext; [done|].
  rewrite !filter_cons. rewrite IH by (intros y Hy; apply Hext; by right).
  pose proof (Hext x ltac:(left)) as Hx.
  destruct (decide (P x)), (decide (Q x)); try done; tauto.
Qed.

(** A row of the merged series lies in exactly one bin. *)
Lemma merged_row_one_bin n dfs b :
  b ∈ merge_frames dfs →
  length (filter (λ label, in_bin (Z.pos n) label b)
            (bin_labels (Z.pos n) (Datetime <$> merge_frames dfs))) = 1%nat.
Proof.
  intros Hb. pose proof (merged_index_sorted dfs) as Hsorted.
  destruct (merge_frames dfs) as [|first rest] eqn:Hrows.
  { by apply elem_of_nil in Hb. }
  rewrite fmap_cons in *.
  set (label := bucket_label (Z.pos n) (normalize (Datetime first))
                  (Datetime b)).
  rewrite (filter_ext_in _ (λ l, l = label)).
  - rewrite filter_NoDup_singleton; [done|by apply bin_labels_NoDup|].
    apply bucket_label_in_bin_labels; [lia|done|].
    rewrite <- fmap_cons. apply list_elem_of_fmap. eauto.
  - intros l Hl. split.
    + intros Hbin. by apply (bin_label_holds _ _ (Datetime <$> rest)).
    + intros ->. apply bucket_label_bounds. lia.
Qed.

Lemma total_nil : total [] = 0.
Proof. reflexivity. Qed.

Lemma total_cons x (l : list Z) : total (x :: l) = x + total l.
Proof. reflexivity. Qed.

Lemma bin_rows_cons w label b (rows : frame) :
  bin_rows w label (b :: rows)
  = if decide (in_bin w label b) then b :: bin_rows w label rows
    else bin_rows w label rows.
Proof. unfold bin_rows. apply filter_cons. Qed.

(** Summed over the bins, a quantity of the rows is summed over the rows,
    when every row lies in exactly one bin. *)
Lemma sum_over_bins (f : Bar → Z) w (labels : list Z) (rows : frame) :
  (∀ b, b ∈ rows →
     length (filter (λ label, in_bin w label b) labels) = 1%nat) →
  total ((λ label, total (f <$> bin_rows w label rows)) <$> labels)
  = total (f <$> rows).
Proof.
  induction rows as [|b rows IH]; intros Hone.
  { rewrite fmap_nil, total_nil. clear.
    induction labels as [|l labels IH]; [done|].
    rewrite fmap_cons, total_cons, IH. done. }
  rewrite fmap_cons, total_cons.
  rewrite <- IH by (intros c Hc; apply Hone; by right).
  specialize (Hone b ltac:(left)).
  assert (∀ ls : list Z,
    total ((λ label, total (f <$> bin_rows w label (b :: rows))) <$> ls)
    = f b * Z.of_nat (length (filter (λ label, in_bin w label b) ls))
      + total ((λ label, total (f <$> bin_rows w label rows)) <$> ls))
    as Hsplit.
  { clear. induction ls as [|l ls IH].
    { rewrite !fmap_nil, filter_nil, total_nil. simpl. lia. }
    rewrite !fmap_cons, !total_cons, IH, (filter_cons _ l ls).
    rewrite bin_rows_cons.
    destruct (decide (in_bin w l b)).
    - rewrite fmap_cons, total_cons. simpl length. lia.
    - lia. }
  rewrite Hsplit, Hone. lia.
Qed.

Lemma omap_cons_Some {A B} (g : A → option B) x y (l : list A) :
  g x = Some y → omap g (x :: l) = y :: omap g l.
Proof. intros Hg. csimpl. by rewrite Hg. Qed.

Lemma omap_cons_None {A B} (g : A → option B) x (l : list A) :
  g x = None → omap g (x :: l) = omap g l.
Proof. intros Hg. csimpl. by rewrite Hg. Qed.

Lemma answer_as_omap n (rows : frame) :
  dropna (resample_agg (Z.pos n) rows)
  = omap (λ label, complete_row
                     (agg_bin label (bin_rows (Z.pos n) label rows)))
      (bin_labels (Z.pos n) (Datetime <$> rows)).
Proof. unfold dropna, resample_agg. apply omap_fmap_compose. Qed.

(** The volume of the answer, bin by bin: the int64 sums of the bins. *)
Lemma answer_volume_by_bins w (labels : list Z) (rows : frame) :
  total (Volume <$> omap (λ label,
           complete_row (agg_bin label (bin_rows w label rows))) labels)
  = total ((λ label, agg_sum (Volume <$> bin_rows w label rows)) <$> labels).
Proof.
  induction labels as [|l labels IH]; [done|].
  rewrite fmap_cons, total_cons, <- IH.
  destruct (complete_row (agg_bin l (bin_rows w l rows))) as [r|] eqn:Hr.
  - rewrite (omap_cons_Some _ _ r) by done.
    apply complete_row_volume in Hr.
    rewrite fmap_cons, total_cons. by rewrite Hr.
  - rewrite omap_cons_None by done.
    assert (bin_rows w l rows = []) as ->; [|done].
    destruct (bin_rows w l rows) as [|b bars] eqn:Hbars; [done|].
    destruct (complete_row_nonempty l (b :: bars)) as [r' Hr']; [done|].
    congruence.
Qed.

Lemma total_divide (f g : Z → Z) (labels : list Z) :
  (∀ l, (2 ^ 64 | f l - g l)) →
  (2 ^ 64 | total (f <$> labels) - total (g <$> labels)).
Proof.
  intros Hfg. induction labels as [|l labels IH].
  { by exists 0. }
  rewrite !fmap_cons, !total_cons.
  replace (f l + total (f <$> labels) - (g l + total (g <$> labels)))
    with ((f l - g l) + (total (f <$> labels) - total (g <$> labels)))
    by lia.
  by apply Z.divide_add_r.
Qed.

Lemma total_ext (f g : Z → Z) (labels : list Z) :
  (∀ l, f l = g l) → total (f <$> labels) = total (g <$> labels).
Proof.
  intros Hfg. induction labels as [|l labels IH]; [done|].
  by rewrite !fmap_cons, !total_cons, Hfg, IH.
Qed.

(** Rows picked out of rows with volumes that are not negative have a
    volume between 0 and the volume of all. *)
Lemma total_filter_bounds (P : Bar → Prop) `{∀ b, Decision (P b)}
  (rows : frame) :
  (∀ b, b ∈ rows → 0 ≤ Volume b) →
  0 ≤ total (Volume <$> filter P rows) ≤ total (Volume <$> rows).
Proof.
  induction rows as [|b rows IH]; intros Hpos.
  { rewrite filter_nil, fmap_nil, total_nil. lia. }
  specialize (IH ltac:(intros c Hc; apply Hpos; by right)).
  specialize (Hpos b ltac:(left)).
  rewrite filter_cons, fmap_cons, total_cons.
  destruct (decide (P b)); [rewrite fmap_cons, total_cons|]; lia.
Qed.

(** Resampling keeps the volume modulo 2^64. *)
Lemma answer_volume_divide n dfs :
  (2 ^ 64 | total (Volume <$> dropna (resample_agg (Z.pos n)
                                        (merge_frames dfs)))
            - total (Volume <$> merge_frames dfs)).
Proof.
  rewrite answer_as_omap, answer_volume_by_bins.
  rewrite <- (sum_over_bins Volume (Z.pos n)
                (bin_labels (Z.pos n) (Datetime <$> merge_frames dfs)))
    by (intros b Hb; by apply merged_row_one_bin).
  apply (total_divide
           (λ label, agg_sum (Volume <$> bin_rows (Z.pos n) label
                                           (merge_frames dfs)))).
  intros l. apply agg_sum_divide.
Qed.

(** It keeps the volume itself when the volumes are not negative and add up
    to less than 2^63. *)
Lemma answer_volume_exact n dfs :
  (∀ b, b ∈ merge_frames dfs → 0 ≤ Volume b) →
  total (Volume <$> merge_frames dfs) < 2 ^ 63 →
  total (Volume <$> dropna (resample_agg (Z.pos n) (merge_frames dfs)))
  = total (Volume <$> merge_frames dfs).
Proof.
  intros Hpos Hsum.
  rewrite answer_as_omap, answer_volume_by_bins.
  rewrite <- (sum_over_bins Volume (Z.pos n)
                (bin_labels (Z.pos n) (Datetime <$> merge_frames dfs)))
    by (intros b Hb; by apply merged_row_one_bin).
  apply total_ext. intros l. apply agg_sum_exact.
  pose proof (total_filter_bounds (in_bin (Z.pos n) l) (merge_frames dfs)
                Hpos) as Hbin.
  unfold int64, bin_rows. lia.
Qed.

Lemma total_ones (l : frame) : total ((λ _, 1) <$> l) = Z.of_nat (length l).
Proof.
  induction l as [|x l IH]; [done|].
  rewrite fmap_cons, total_cons, IH. simpl length. lia.
Qed.

(** The rows of the answer are no more than the rows of the bins. *)
Lemma answer_length_by_bins w (labels : list Z) (rows : frame) :
  Z.of_nat (length (omap (λ label,
              complete_row (agg_bin label (bin_rows w label rows))) labels))
  ≤ total ((λ label, total ((λ _, 1) <$> bin_rows w label rows)) <$> labels).
Proof.
  induction labels as [|l labels IH]; [done|].
  rewrite fmap_cons, total_cons, total_ones.
  destruct (complete_row (agg_bin l (bin_rows w l rows))) as [r|] eqn:Hr.
  - rewrite (omap_cons_Some _ _ r) by done.
    apply complete_row_Some in Hr as (Hne & _ & _). simpl length.
    destruct (bin_rows w l rows); [done|]. simpl length. lia.
  - rewrite omap_cons_None by done. lia.
Qed.

Lemma sorted_rows_NoDup (rows : frame) :
  StronglySorted index_lt rows → NoDup rows.
Proof.
  induction 1 as [|b rows Hsorted IH Hall]; constructor; [|done].
  intros Hin. rewrite Forall_forall in Hall. specialize (Hall b Hin).
  unfold index_lt in Hall. lia.
Qed.

Lemma merged_row_alone dfs b :
  b ∈ merge_frames dfs → rows_at (Datetime b) (merge_frames dfs) = [b].
Proof.
  intros Hb%elem_of_merge_frames. by rewrite merge_frames_rows_at, Hb.
Qed.

Lemma one_minute_query_Ok start end_date dir :
  ∃ out, buscar_dados (Minutes 1) start end_date dir = Ok out.
Proof.
  unfold buscar_dados. destruct (lista_dfs start end_date dir); eauto.
Qed.

(** X12: over a range whose last day is before its first, the query reads
    nothing and returns the empty frame, for every timeframe. *)
Theorem query_inverted_range_is_empty timeframe start end_date dir :
  end_date < start →
  buscar_dados timeframe start end_date dir = Ok [].
Proof.
  intros Hlt. unfold buscar_dados. rewrite lista_dfs_spec.
  by rewrite seqZ_nil by lia.
Qed.

(** X13: with a timeframe pandas rejects, the query raises exactly when
    some day of the range has a store that can be read; it never returns
    rows. *)
Theorem query_malformed_timeframe start end_date dir :
  (buscar_dados Malformed start end_date dir = Raise ↔
   ∃ d, start ≤ d ≤ end_date ∧ is_Some (day_frame dir d)) ∧
  (∀ out, buscar_dados Malformed start end_date dir = Ok out → out = []).
Proof.
  unfold buscar_dados. rewrite lista_dfs_spec.
  destruct (omap (day_frame dir) (seqZ start (end_date - start + 1)))
    as [|df dfs] eqn:Hread.
  - split; [|by intros out [= <-]]. split; [done|].
    intros (d & Hd & [rows Hrows]).
    assert (rows ∈ omap (day_frame dir) (seqZ start (end_date - start + 1)))
      as Hin.
    { apply list_elem_of_omap. exists d. split; [|done].
      apply elem_of_seqZ. lia. }
    rewrite Hread in Hin. by apply elem_of_nil in Hin.
  - split; [|done]. split; [|done]. intros _.
    assert (df ∈ omap (day_frame dir) (seqZ start (end_date - start + 1)))
      as Hin by (rewrite Hread; left).
    apply list_elem_of_omap in Hin as (d & Hd%elem_of_seqZ & Hdf).
    exists d. split; [lia|by eexists].
Qed.

(** X14: the rows of an answer come in strictly ascending time, so no two
    of them carry the same timestamp. *)
Theorem query_answer_ascending n start end_date dir out :
  buscar_dados (Minutes n) start end_date dir = Ok out →
  StronglySorted index_lt out ∧ NoDup (Datetime <$> out).
Proof.
  intros ->%buscar_dados_Ok.
  pose proof (resampled_sorted n
                (merge_frames (lista_dfs start end_date dir))) as Hsorted.
  split; [done|].
  induction Hsorted as [|r out Hsorted IH Hall]; [constructor|].
  rewrite fmap_cons. constructor; [|done].
  intros (r' & Heq & Hin)%list_elem_of_fmap.
  rewrite Forall_forall in Hall. specialize (Hall r' Hin).
  unfold index_lt in Hall. lia.
Qed.

(** X15: resampling keeps the volume modulo 2^64: the volumes of the rows
    of an answer, each an int64 sum, add up to the volumes of the rows of
    the merged minute series but for a multiple of 2^64; and they add up
    to the same when the volumes of the series are not negative and their
    sum is less than 2^63. *)
Theorem query_conserves_volume n start end_date dir out :
  buscar_dados (Minutes n) start end_date dir = Ok out →
  let dados_1m := merge_frames (lista_dfs start end_date dir) in
  (2 ^ 64 | total (Volume <$> out) - total (Volume <$> dados_1m)) ∧
  ((∀ b, b ∈ dados_1m → 0 ≤ Volume b) →
   total (Volume <$> dados_1m) < 2 ^ 63 →
   total (Volume <$> out) = total (Volume <$> dados_1m)).
Proof.
  intros ->%buscar_dados_Ok dados_1m. split.
  - apply answer_volume_divide.
  - apply answer_volume_exact.
Qed.

Lemma one_minute_merged start end_date dir :
  buscar_dados (Minutes 1) start end_date dir
  = Ok (merge_frames (lista_dfs start end_date dir)).
Proof.
  destruct (one_minute_query_Ok start end_date dir) as [out Hout].
  rewrite Hout. f_equal. apply buscar_dados_Ok in Hout. subst out.
  set (dfs := lista_dfs start end_date dir).
  assert (∀ b, b ∈ merge_frames dfs →
            rows_at (Datetime b) (dropna (resample_agg 1 (merge_frames dfs)))
            = [b]) as Hone.
  { intros b Hb. by apply one_minute_answer, merged_row_alone. }
  apply (StronglySorted_unique_strong index_lt).
  - unfold index_lt. intros; lia.
  - apply (resampled_sorted 1).
  - apply merge_frames_sorted.
  - apply NoDup_Permutation.
    + apply sorted_rows_NoDup, (resampled_sorted 1).
    + apply sorted_rows_NoDup, merge_frames_sorted.
    + intros r. split.
      * intros Hr.
        destruct (answer_row_bin 1 dfs r Hr) as (_ & Hne & _).
        destruct (bin_rows 1 (Datetime r) (merge_frames dfs))
          as [|b bars] eqn:Hbars; [done|].
        assert (b ∈ bin_rows 1 (Datetime r) (merge_frames dfs)) as Hb
          by (rewrite Hbars; left).
        apply list_elem_of_filter in Hb as [Hbin Hb]. unfold in_bin in Hbin.
        assert (r ∈ rows_at (Datetime b)
                      (dropna (resample_agg 1 (merge_frames dfs)))) as Hat.
        { apply list_elem_of_filter. split; [lia|done]. }
        rewrite (Hone b Hb) in Hat.
        by apply list_elem_of_singleton in Hat as ->.
      * intros Hb.
        assert (r ∈ rows_at (Datetime r)
                      (dropna (resample_agg 1 (merge_frames dfs)))) as Hat.
        { rewrite (Hone r Hb). left. }
        by apply list_elem_of_filter in Hat as [_ ?].
Qed.

(** X16: at one minute the answer is the merged minute series itself. *)
Theorem query_one_minute_is_merged_series start end_date dir :
  buscar_dados (Minutes 1) start end_date dir
  = Ok (merge_frames (lista_dfs start end_date dir)).
Proof. apply one_minute_merged. Qed.

(** X17: an answer has no more rows than the merged minute series, and
    it is empty only when that series is. *)
Theorem query_answer_size n start end_date dir out :
  buscar_dados (Minutes n) start end_date dir = Ok out →
  (out = [] ↔ merge_frames (lista_dfs start end_date dir) = []) ∧
  (length out ≤ length (merge_frames (lista_dfs start end_date dir)))%nat.
Proof.
  intros ->%buscar_dados_Ok.
  set (rows := merge_frames (lista_dfs start end_date dir)). split.
  - split.
    + intros Hout. destruct rows as [|b rest] eqn:Hrows; [done|].
      destruct (merged_row_has_bin n (lista_dfs start end_date dir) b b)
        as (r & Hr & _).
      * fold rows. by rewrite Hrows.
      * fold rows. rewrite Hrows. left.
      * fold rows in Hr. rewrite Hrows, Hout in Hr.
        by apply elem_of_nil in Hr.
    + by intros ->.
  - apply Nat2Z.inj_le. rewrite answer_as_omap.
    etransitivity; [apply answer_length_by_bins|].
    rewrite sum_over_bins, total_ones; [done|].
    intros b Hb. by apply merged_row_one_bin.
Qed.

(** A bar whose prices are in order: the low is not above the open nor the
    close, and the high not below them. *)
Definition well_formed (b : Bar) : Prop :=
  (Low b <= Open b)%Q ∧ (Low b <= Close b)%Q ∧
  (Open b <= High b)%Q ∧ (Close b <= High b)%Q.

(** X18: when the bars of the stores of the range have their prices in
    order, so have the rows of the answer. *)
Theorem query_keeps_prices_in_order n start end_date dir out :
  buscar_dados (Minutes n) start end_date dir = Ok out →
  (∀ d rows b, start ≤ d ≤ end_date → day_frame dir d = Some rows →
     b ∈ rows → well_formed b) →
  ∀ r, r ∈ out → well_formed r.
Proof.
  intros ->%buscar_dados_Ok Hstored r Hr.
  apply answer_row_bin in Hr as (_ & Hne & Hagg).
  set (bars := bin_rows (Z.pos n) (Datetime r)
                 (merge_frames (lista_dfs start end_date dir))) in *.
  assert (∀ b, b ∈ bars → well_formed b) as Hbars.
  { intros b [_ Hb]%list_elem_of_filter.
    apply merged_row_origin in Hb as (d & rows & Hd & Hrows & Hin).
    by apply (Hstored d rows). }
  destruct Hagg as [Hfirst Hlast [_ Hhigh] [_ Hlow] _].
  destruct (head bars) as [first|] eqn:Hhead; [|done].
  destruct (last bars) as [final|] eqn:Hfinal; [|done].
  injection Hfirst as Hfirst. injection Hlast as Hlast.
  apply head_Some_elem_of in Hhead. apply last_Some_elem_of in Hfinal.
  destruct (Hbars first Hhead) as (Hlo & _ & Hoh & _).
  destruct (Hbars final Hfinal) as (_ & Hlc & _ & Hch).
  assert (∀ b, b ∈ bars → (Low r <= Low b)%Q ∧ (High b <= High r)%Q)
    as Hbounds.
  { intros b Hb. split; [apply Hlow | apply Hhigh];
      apply list_elem_of_fmap; eauto. }
  destruct (Hbounds first Hhead) as [Hl1 Hh1].
  destruct (Hbounds final Hfinal) as [Hl2 Hh2].
  unfold well_formed. rewrite <- Hfirst, <- Hlast. repeat split.
  - exact (Qle_trans _ _ _ Hl1 Hlo).
  - exact (Qle_trans _ _ _ Hl2 Hlc).
  - exact (Qle_trans _ _ _ Hoh Hh1).
  - exact (Qle_trans _ _ _ Hch Hh2).
Qed.

(** X19: at the daily timeframe every row of the answer is labelled with
    midnight of a day and stands for the bars of that calendar day, all
    of them and no other. *)
Theorem query_daily_rows_are_days start end_date dir out r :
  buscar_dados (Minutes 1440) start end_date dir = Ok out → r ∈ out →
  Datetime r = midnight (date_of_timestamp (Datetime r)) ∧
  ∀ b, in_bin 1440 (Datetime r) b ↔
       date_of_timestamp (Datetime b) = date_of_timestamp (Datetime r).
Proof.
  intros ->%buscar_dados_Ok Hr.
  apply answer_row_bin in Hr as (Hlabel & Hne & _).
  destruct (merge_frames (lista_dfs start end_date dir))
    as [|first rest] eqn:Hrows; [done|].
  rewrite fmap_cons in Hlabel.
  apply elem_of_bin_labels in Hlabel as (q & _ & Hq); [|lia].
  unfold normalize, day_minutes in Hq.
  assert (∃ k, Datetime r = 1440 * k) as [k Hk].
  { exists (Datetime first / 1440 + q).
    pose proof (Z.div_mod (Datetime first) 1440 ltac:(lia)). lia. }
  split.
  - unfold midnight, date_of_timestamp, day_minutes, epoch_ordinal.
    rewrite Hk. replace (1440 * k) with (k * 1440) by lia.
    rewrite Z.div_mul by lia. lia.
  - intros b. unfold in_bin, date_of_timestamp, day_minutes. rewrite Hk.
    replace (1440 * k / 1440) with k
      by (replace (1440 * k) with (k * 1440) by lia;
          by rewrite Z.div_mul by lia).
    split.
    + intros Hb. f_equal. symmetry.
      apply (Z.div_unique _ _ _ (Datetime b - 1440 * k)); lia.
    + intros Hb.
      pose proof (Z.div_mod (Datetime b) 1440 ltac:(lia)) as Hdm.
      pose proof (Z.mod_pos_bound (Datetime b) 1440 ltac:(lia)).
      assert (Datetime b / 1440 = k) as Hdiv by lia.
      rewrite Hdiv in Hdm. lia.
Qed.

(** The labels of the answer are the bucket labels of the merged rows. *)
Lemma answer_labels n dfs first t :
  head (merge_frames dfs) = Some first →
  t ∈ Datetime <$> dropna (resample_agg (Z.pos n) (merge_frames dfs)) ↔
  ∃ b, b ∈ merge_frames dfs ∧
       t = bucket_label (Z.pos n) (normalize (Datetime first)) (Datetime b).
Proof.
  intros Hhead. split.
  - intros (r & -> & Hr)%list_elem_of_fmap.
    apply answer_row_bin in Hr as (Hlabel & Hne & _).
    destruct (bin_rows (Z.pos n) (Datetime r) (merge_frames dfs))
      as [|b bars] eqn:Hbars; [done|].
    assert (b ∈ bin_rows (Z.pos n) (Datetime r) (merge_frames dfs)) as Hb
      by (rewrite Hbars; left).
    apply list_elem_of_filter in Hb as [Hbin Hb].
    exists b. split; [done|].
    apply head_Some in Hhead as [rest Hrows].
    rewrite Hrows, fmap_cons in Hlabel.
    by apply (bin_label_holds _ _ (Datetime <$> rest)).
  - intros (b & Hb & ->).
    destruct (merged_row_has_bin n dfs first b Hhead Hb) as (r & Hr & Heq).
    apply list_elem_of_fmap. by exists r.
Qed.

Lemma bucket_label_coarser n k origin t :
  0 < n → 0 < k →
  bucket_label (n * k) origin (bucket_label n origin t)
  = bucket_label (n * k) origin t.
Proof.
  intros Hn Hk. rewrite !bucket_label_div by nia.
  replace (origin + n * ((t - origin) / n) - origin)
    with (n * ((t - origin) / n)) by lia.
  rewrite Z.div_mul_cancel_l by lia.
  by rewrite Z.div_div by lia.
Qed.

Lemma resampled_index_NoDup n rows :
  NoDup (Datetime <$> dropna (resample_agg (Z.pos n) rows)).
Proof.
  pose proof (resampled_sorted n rows) as Hsorted.
  induction Hsorted as [|r out Hsorted IH Hall]; [constructor|].
  rewrite fmap_cons. constructor; [|done].
  intros (r' & Heq & Hin)%list_elem_of_fmap.
  rewrite Forall_forall in Hall. specialize (Hall r' Hin).
  unfold index_lt in Hall. lia.
Qed.

Lemma coarser_fewer_rows n k dfs :
  (length (dropna (resample_agg (Z.pos (n * k)) (merge_frames dfs)))
   ≤ length (dropna (resample_agg (Z.pos n) (merge_frames dfs))))%nat.
Proof.
  destruct (head (merge_frames dfs)) as [first|] eqn:Hhead.
  2: { apply head_None in Hhead. by rewrite Hhead. }
  set (g := bucket_label (Z.pos (n * k)) (normalize (Datetime first))).
  rewrite <- (length_fmap Datetime).
  rewrite <- (length_fmap Datetime
                (dropna (resample_agg (Z.pos n) (merge_frames dfs)))).
  rewrite <- (length_fmap g
                (Datetime <$> dropna (resample_agg (Z.pos n)
                                        (merge_frames dfs)))).
  apply submseteq_length, NoDup_submseteq; [apply resampled_index_NoDup|].
  intros t (b & Hb & ->)%(answer_labels (n * k) dfs first); [|done].
  apply list_elem_of_fmap.
  exists (bucket_label (Z.pos n) (normalize (Datetime first)) (Datetime b)).
  split.
  - unfold g. rewrite Pos2Z.inj_mul. symmetry.
    apply bucket_label_coarser; lia.
  - apply (answer_labels n dfs first); [done|]. by exists b.
Qed.

(** X20: a timeframe that is a multiple of another gives no more rows than
    that one over the same range, and every row of the finer answer falls
    in the bin of a row of the coarser one. *)
Theorem query_coarser_timeframe_has_fewer_rows n k start end_date dir
    fine coarse :
  buscar_dados (Minutes n) start end_date dir = Ok fine →
  buscar_dados (Minutes (n * k)) start end_date dir = Ok coarse →
  (length coarse ≤ length fine)%nat ∧
  ∀ r, r ∈ fine → ∃ c, c ∈ coarse ∧ in_bin (Z.pos (n * k)) (Datetime c) r.
Proof.
  intros ->%buscar_dados_Ok ->%buscar_dados_Ok.
  split; [apply coarser_fewer_rows|]. intros r Hr.
  set (dfs := lista_dfs start end_date dir) in *.
  destruct (head (merge_frames dfs)) as [first|] eqn:Hhead.
  2: { apply head_None in Hhead. rewrite Hhead in Hr.
       by apply elem_of_nil in Hr. }
  assert (Datetime r
            ∈ Datetime <$> dropna (resample_agg (Z.pos n) (merge_frames dfs)))
    as Hin by (by apply list_elem_of_fmap_2).
  apply (proj1 (answer_labels n dfs first _ Hhead)) in Hin
    as (b & Hb & Hlabel).
  destruct (merged_row_has_bin (n * k) dfs first b Hhead Hb)
    as (c & Hc & Heq).
  exists c. split; [done|]. unfold in_bin.
  rewrite Heq, Hlabel, Pos2Z.inj_mul.
  rewrite <- (bucket_label_coarser (Z.pos n) (Z.pos k)) by lia.
  apply bucket_label_bounds. lia.
Qed.

End ComposerProperties.

(** ** The script [main.py]: a run, then three queries *)

(** [main.py] synchronises and then asks for the last three days and today
    at five minutes, at thirty minutes and by day.  It stops at the first
    call that raises. *)
Definition main `{DateFormat} (yf_download : date → frame) (today : date)
    (dir : directory) : result (directory * (frame * frame * frame)) :=
  let run := sincronizar_dados_historicos yf_download today dir in
  if raised run then Raise
  else
    match buscar_dados (Minutes 5) (today - 3) today (cache run) with
    | Raise => Raise
    | Ok dados_5m =>
        match buscar_dados (Minutes 30) (today - 3) today (cache run) with
        | Raise => Raise
        | Ok dados_30m =>
            match buscar_dados (Minutes 1440) (today - 3) today (cache run)
            with
            | Raise => Raise
            | Ok dados_1d => Ok (cache run, (dados_5m, dados_30m, dados_1d))
            end
        end
    end.

Section ScriptProperties.
Context `{DateFormat}.
Variable yf_download : date → frame.

Lemma sorted_Z_ext (l k : list Z) :
  StronglySorted Z.lt l → StronglySorted Z.lt k →
  (∀ x, x ∈ l ↔ x ∈ k) → l = k.
Proof.
  assert (∀ l : list Z, StronglySorted Z.lt l → NoDup l) as Hnodup.
  { induction 1 as [|x xs Hsorted IH Hall]; constructor; [|done].
    intros Hin. rewrite Forall_forall in Hall. specialize (Hall x Hin). lia. }
  intros Hl Hk Hsame. apply (StronglySorted_unique_strong Z.lt); try done.
  - intros; lia.
  - apply NoDup_Permutation; auto.
Qed.

Lemma omap_decide {A B} (P : A → Prop) `{∀ x, Decision (P x)}
  (f : A → B) (g : A → option B) (l : list A) :
  (∀ x, x ∈ l → ¬ P x → g x = None) →
  omap (λ x, if decide (P x) then Some (f x) else g x) l = f <$> filter P l.
Proof.
  induction l as [|x l IH]; intros Hg; [done|].
  rewrite filter_cons. cbn [omap list_omap].
  fold (omap (λ x, if decide (P x) then Some (f x) else g x) l).
  rewrite IH by (intros y Hy; apply Hg; by right).
  destruct (decide (P x)) as [Hx|Hx]; [done|].
  rewrite (Hg x) by (done || left). done.
Qed.

(** The days of a range up to yesterday or later for which a completed
    run has stored an answer. *)
Lemma window_days start today end_date :
  today - 1 ≤ end_date →
  filter (λ d, start ≤ d < today ∧ weekday d < 5 ∧ yf_download d ≠ [])
    (seqZ start (end_date - start + 1))
  = filter (λ d, yf_download d ≠ []) (weekdays_from start today).
Proof.
  intros Hend. apply sorted_Z_ext.
  - apply filter_sorted, seqZ_sorted_lt.
  - apply filter_sorted. unfold weekdays_from.
    apply filter_sorted, seqZ_sorted_lt.
  - intros d. rewrite !list_elem_of_filter, elem_of_weekdays_from,
      elem_of_seqZ.
    split; [tauto|]. intros (Hne & Hd & Hw). repeat split; try done; lia.
Qed.

(** X21: after a run from an empty directory, or from one whose files are
    all named for days, a query at one minute from the first day of the
    window to yesterday or later returns the answers of the provider for
    the weekdays of the window, the empty ones left out, merged into one
    series. *)
Theorem sync_then_query_returns_answers today dir end_date :
  dir = ∅ ∨ is_Some (_get_ultima_data_db dir) →
  today - 1 ≤ end_date →
  let run := sincronizar_dados_historicos yf_download today dir in
  let start := data_inicial today dir in
  buscar_dados (Minutes 1) start end_date (cache run)
  = Ok (merge_frames
          (yf_download <$> filter (λ d, yf_download d ≠ [])
                             (weekdays_from start today))).
Proof.
  intros Hdir Hend. cbv zeta. rewrite one_minute_merged. do 2 f_equal.
  assert (raised (sincronizar_dados_historicos yf_download today dir) = false)
    as Hr by (by apply sync_completes_from_cursor).
  rewrite lista_dfs_spec, <- (window_days _ _ end_date) by done.
  rewrite <- (omap_decide _ yf_download (day_frame dir)).
  - induction (seqZ (data_inicial today dir)
                 (end_date - data_inicial today dir + 1)) as [|d l IH];
      [done|].
    cbn [omap list_omap]. rewrite (sync_day_frame yf_download) by done.
    by rewrite <- IH.
  - intros d Hd%elem_of_seqZ _. unfold day_frame, read_sql_query.
    assert (dir !! _get_db_path_for_date d = None) as ->; [|done].
    destruct Hdir as [-> | [c Hc]]; [apply lookup_empty|].
    destruct (dir !! _get_db_path_for_date d) as [file|] eqn:Hfile; [|done].
    apply cursor_Some in Hc as Hall. destruct Hall as [Hall _].
    destruct (Hall (_get_db_path_for_date d)) as (e & He & Hle);
      [by rewrite Hfile|].
    unfold _get_db_path_for_date in He. rewrite strptime_strftime in He.
    injection He as <-. unfold data_inicial in Hd. rewrite Hc in Hd. lia.
Qed.

(** When the run completes, so does the script. *)
Lemma main_Ok today dir :
  raised (sincronizar_dados_historicos yf_download today dir) = false →
  ∃ dados_5m dados_30m dados_1d,
    main yf_download today dir
    = Ok (cache (sincronizar_dados_historicos yf_download today dir),
          (dados_5m, dados_30m, dados_1d)).
Proof.
  intros Hr. unfold main. rewrite Hr. unfold buscar_dados.
  destruct (lista_dfs (today - 3) today
              (cache (sincronizar_dados_historicos yf_download today dir)));
    eauto.
Qed.

(** X22: the script raises exactly when the run of the synchroniser does;
    the queries cannot.  When it ends, the directory is the one the run
    left, the coarser an answer the fewer its rows, and the three answers
    carry the same volume modulo 2^64: the same volume when the volumes of
    the merged series of the four days are not negative and add up to less
    than 2^63. *)
Theorem main_answers_agree today dir :
  (main yf_download today dir = Raise ↔
   raised (sincronizar_dados_historicos yf_download today dir) = true) ∧
  (∀ dir1 dados_5m dados_30m dados_1d,
     main yf_download today dir = Ok (dir1, (dados_5m, dados_30m, dados_1d)) →
     dir1 = cache (sincronizar_dados_historicos yf_download today dir) ∧
     (length dados_1d ≤ length dados_30m ≤ length dados_5m)%nat ∧
     (2 ^ 64 | total (Volume <$> dados_5m) - total (Volume <$> dados_30m)) ∧
     (2 ^ 64 | total (Volume <$> dados_30m) - total (Volume <$> dados_1d)) ∧
     let dados_1m := merge_frames (lista_dfs (today - 3) today dir1) in
     (∀ b, b ∈ dados_1m → 0 ≤ Volume b) →
     total (Volume <$> dados_1m) < 2 ^ 63 →
     total (Volume <$> dados_5m) = total (Volume <$> dados_30m) ∧
     total (Volume <$> dados_30m) = total (Volume <$> dados_1d)).
Proof.
  unfold main.
  set (run := sincronizar_dados_historicos yf_download today dir).
  destruct (raised run); [split; [done|intros ? ? ? ? [=]]|].
  set (dfs := lista_dfs (today - 3) today (cache run)).
  assert (∀ n, buscar_dados (Minutes n) (today - 3) today (cache run)
               = Ok (dropna (resample_agg (Z.pos n) (merge_frames dfs))))
    as Hquery.
  { intros n. unfold buscar_dados. fold dfs. by destruct dfs. }
  rewrite !Hquery. split; [done|].
  intros dir1 a b c [= <- <- <- <-]. split; [done|]. split.
  { split; [apply (coarser_fewer_rows 30 48)|apply (coarser_fewer_rows 5 6)]. }
  pose proof (answer_volume_divide 5 dfs) as H5.
  pose proof (answer_volume_divide 30 dfs) as H30.
  pose proof (answer_volume_divide 1440 dfs) as H1d.
  split; [|split].
  - replace (total (Volume <$> dropna (resample_agg 5 (merge_frames dfs)))
             - total (Volume <$> dropna (resample_agg 30 (merge_frames dfs))))
      with ((total (Volume <$> dropna (resample_agg 5 (merge_frames dfs)))
             - total (Volume <$> merge_frames dfs))
            - (total (Volume <$> dropna (resample_agg 30 (merge_frames dfs)))
               - total (Volume <$> merge_frames dfs))) by lia.
    by apply Z.divide_sub_r.
  - replace (total (Volume <$> dropna (resample_agg 30 (merge_frames dfs)))
             - total (Volume <$> dropna (resample_agg 1440 (merge_frames dfs))))
      with ((total (Volume <$> dropna (resample_agg 30 (merge_frames dfs)))
             - total (Volume <$> merge_frames dfs))
            - (total (Volume <$> dropna (resample_agg 1440 (merge_frames dfs)))
               - total (Volume <$> merge_frames dfs))) by lia.
    by apply Z.divide_sub_r.
  - cbv zeta. intros Hpos Hsum.
    rewrite (answer_volume_exact 5), (answer_volume_exact 30),
      (answer_volume_exact 1440) by done.
    done.
Qed.

End ScriptProperties.

(** ** The further properties on concrete runs *)

Module Broken.

(** A directory with a stray file and a Wednesday file that is not a
    database. *)
Definition wednesday : date := 738895.
Definition broken : directory :=
  <[_get_db_path_for_date wednesday := NotADatabase]>
    {[ "notes"%string := Database None ]}.

(** The two days with the table of the Wednesday created, empty. *)
Definition with_wednesday : directory :=
  <[_get_db_path_for_date wednesday := Database (Some [])]> two_days.

End Broken.
Import Broken.


Lemma written_day_reads_back_run :
  _ensure_table_exists (_get_db_path_for_date wednesday) two_days
  = Ok with_wednesday ∧
  ∃ dir2,
    to_sql (one_bar 5) (_get_db_path_for_date wednesday) with_wednesday
    = Ok dir2 ∧
    day_frame dir2 wednesday = Some (one_bar 5) ∧
    day_frame dir2 monday = day_frame two_days monday.
Proof.
  assert (_ensure_table_exists (_get_db_path_for_date wednesday) two_days
          = Ok with_wednesday) as Hensure by reflexivity.
  split; [exact Hensure|].
  destruct (written_day_reads_back (one_bar 5) wednesday two_days
              with_wednesday Hensure) as (dir2 & Hwrite & _ & Hread & Hrest).
  exists dir2. split; [exact Hwrite|]. split; [exact Hread|].
  apply Hrest. discriminate.
Defined.

Lemma cursor_after_write_run :
  _get_ultima_data_db two_days = Some tuesday ∧
  _get_ultima_data_db (<[_get_db_path_for_date friday := Database None]>
                         two_days) = Some friday.
Proof.
  assert (_get_ultima_data_db two_days = Some tuesday) as Hc
    by (vm_compute; reflexivity).
  split; [exact Hc|].
  destruct (cursor_after_write friday (Database None) two_days)
    as (Hlater & _ & _).
  exact (Hlater tuesday Hc).
Defined.

Lemma sync_up_to_date_does_nothing_run :
  wednesday - 1 ≤ tuesday ∧
  is_Some (two_days !! _get_db_path_for_date tuesday) ∧
  sincronizar_dados_historicos holiday_monday wednesday two_days
  = mkSync two_days [] false.
Proof.
  assert (wednesday - 1 ≤ tuesday) as Hd by (unfold wednesday, tuesday; lia).
  assert (is_Some (two_days !! _get_db_path_for_date tuesday)) as Hfile
    by compute_done.
  split; [exact Hd|]. split; [exact Hfile|].
  apply (sync_up_to_date_does_nothing holiday_monday wednesday two_days
           tuesday); [|exact Hd|exact Hfile].
  assert (_get_ultima_data_db two_days = Some tuesday) as Hc
    by (vm_compute; reflexivity).
  intros stem Hstem. apply cursor_Some in Hc as [Hall _].
  destruct (Hall stem Hstem) as (e & -> & _). by eexists.
Defined.

Lemma sync_fills_window_run :
  let run := sincronizar_dados_historicos holiday_monday saturday ∅ in
  raised run = false ∧
  fetched run = weekdays_from (data_inicial saturday ∅) saturday ∧
  day_frame (cache run) tuesday = Some (holiday_monday tuesday) ∧
  day_frame (cache run) monday = None.
Proof.
  destruct (sync_fills_window holiday_monday saturday ∅ (or_introl eq_refl))
    as (Hr & Hasked & _ & Hread).
  split; [exact Hr|]. split; [exact Hasked|]. split.
  - rewrite (Hread tuesday). reflexivity.
  - rewrite (Hread monday). reflexivity.
Defined.

Lemma sync_failure_keeps_earlier_days_run :
  let run := sincronizar_dados_historicos holiday_monday saturday broken in
  raised run = true ∧
  ∃ d, data_inicial saturday broken ≤ d < saturday ∧
    broken !! _get_db_path_for_date d = Some NotADatabase ∧
    fetched run = weekdays_from (data_inicial saturday broken) (d + 1) ∧
    (∀ e, d ≤ e →
       cache run !! _get_db_path_for_date e
       = broken !! _get_db_path_for_date e).
Proof.
  assert (raised (sincronizar_dados_historicos holiday_monday saturday broken)
          = true) as Hr by (vm_compute; reflexivity).
  split; [exact Hr|].
  destruct (sync_failure_keeps_earlier_days holiday_monday saturday broken Hr)
    as (d & Hd & _ & _ & Hbad & Hasked & _ & Hrest).
  exists d. split; [exact Hd|]. split; [exact Hbad|].
  split; [exact Hasked|exact Hrest].
Defined.

Lemma sync_bootstrap_asks_four_or_five_run :
  _get_ultima_data_db broken = None ∧
  (length (fetched (sincronizar_dados_historicos holiday_monday saturday
                      broken)) ≤ 5)%nat.
Proof.
  assert (_get_ultima_data_db broken = None) as Hc
    by (vm_compute; reflexivity).
  split; [exact Hc|].
  destruct (sync_bootstrap_asks_four_or_five holiday_monday saturday)
    as [Hmost _].
  exact (Hmost broken Hc).
Defined.

Lemma sync_cursor_never_rewinds_run :
  _get_ultima_data_db two_days = Some tuesday ∧
  ∃ c',
    _get_ultima_data_db
      (cache (sincronizar_dados_historicos holiday_monday saturday two_days))
    = Some c' ∧
    (c' = tuesday ∨
     (tuesday < c' < saturday ∧ weekday c' < 5 ∧ holiday_monday c' ≠ [])).
Proof.
  assert (_get_ultima_data_db two_days = Some tuesday) as Hc
    by (vm_compute; reflexivity).
  split; [exact Hc|].
  exact (sync_cursor_never_rewinds holiday_monday saturday two_days tuesday
           Hc).
Defined.

Module Answers.

(** The answers over the two days at five and thirty minutes and by day:
    one row for each of the two bars. *)
Definition rows_labelled (m : Z) : frame :=
  [mkBar (midnight monday + m) (10#1) (10#1) (10#1) (10#1) 1;
   mkBar (midnight tuesday + m) (11#1) (11#1) (11#1) (11#1) 2].

End Answers.
Import Answers.

Lemma two_days_answer_5 :
  buscar_dados (Minutes 5) monday tuesday two_days = Ok (rows_labelled 540).
Proof. by vm_compute. Qed.

Lemma two_days_answer_30 :
  buscar_dados (Minutes (5 * 6)) monday tuesday two_days
  = Ok (rows_labelled 540).
Proof. by vm_compute. Qed.

Lemma two_days_answer_daily :
  buscar_dados (Minutes 1440) monday tuesday two_days = Ok (rows_labelled 0).
Proof. by vm_compute. Qed.

Lemma query_inverted_range_is_empty_run :
  monday < tuesday ∧
  buscar_dados (Minutes 5) tuesday monday two_days = Ok [].
Proof.
  assert (monday < tuesday) as Hlt by (unfold monday, tuesday; lia).
  split; [exact Hlt|].
  exact (query_inverted_range_is_empty (Minutes 5) tuesday monday two_days
           Hlt).
Defined.

Lemma query_malformed_timeframe_run :
  is_Some (day_frame two_days monday) ∧
  buscar_dados Malformed monday tuesday two_days = Raise.
Proof.
  assert (is_Some (day_frame two_days monday)) as Hread
    by (exists [nine_monday]; reflexivity).
  split; [exact Hread|].
  destruct (query_malformed_timeframe monday tuesday two_days)
    as [Hraise _].
  apply Hraise. exists monday. split; [|exact Hread].
  unfold monday, tuesday. lia.
Defined.

Lemma query_answer_ascending_run :
  buscar_dados (Minutes 5) monday tuesday two_days = Ok (rows_labelled 540) ∧
  StronglySorted index_lt (rows_labelled 540) ∧
  NoDup (Datetime <$> rows_labelled 540).
Proof.
  split; [exact two_days_answer_5|].
  exact (query_answer_ascending 5 monday tuesday two_days _
           two_days_answer_5).
Defined.

Lemma two_days_merged :
  merge_frames (lista_dfs monday tuesday two_days)
  = [nine_monday; nine_tuesday].
Proof. by vm_compute. Qed.

Lemma query_conserves_volume_run :
  buscar_dados (Minutes 5) monday tuesday two_days = Ok (rows_labelled 540) ∧
  (∀ b, b ∈ merge_frames (lista_dfs monday tuesday two_days) →
     0 ≤ Volume b) ∧
  total (Volume <$> merge_frames (lista_dfs monday tuesday two_days))
  < 2 ^ 63 ∧
  total (Volume <$> rows_labelled 540)
  = total (Volume <$> merge_frames (lista_dfs monday tuesday two_days)).
Proof.
  assert (∀ b, b ∈ merge_frames (lista_dfs monday tuesday two_days) →
            0 ≤ Volume b) as Hpos.
  { rewrite two_days_merged. intros b Hb.
    apply elem_of_cons in Hb as [-> | Hb]; [simpl; lia|].
    apply list_elem_of_singleton in Hb as ->. simpl. lia. }
  assert (total (Volume <$> merge_frames (lista_dfs monday tuesday two_days))
          < 2 ^ 63) as Hsum.
  { rewrite two_days_merged. reflexivity. }
  split; [exact two_days_answer_5|]. split; [exact Hpos|].
  split; [exact Hsum|].
  exact (proj2 (query_conserves_volume 5 monday tuesday two_days _
                  two_days_answer_5) Hpos Hsum).
Defined.

Lemma query_answer_size_run :
  buscar_dados (Minutes 5) monday tuesday two_days = Ok (rows_labelled 540) ∧
  (length (rows_labelled 540)
   ≤ length (merge_frames (lista_dfs monday tuesday two_days)))%nat.
Proof.
  split; [exact two_days_answer_5|].
  exact (proj2 (query_answer_size 5 monday tuesday two_days _
                  two_days_answer_5)).
Defined.

Lemma two_days_prices_in_order d rows b :
  monday ≤ d ≤ tuesday → day_frame two_days d = Some rows → b ∈ rows →
  well_formed b.
Proof.
  intros Hd Hrows Hb.
  assert (d = monday ∨ d = tuesday) as [-> | ->]
    by (unfold monday, tuesday in *; lia).
  - assert (rows = [nine_monday]) as -> by (by injection Hrows).
    apply list_elem_of_singleton in Hb as ->.
    repeat split; unfold Qle; simpl; lia.
  - assert (rows = [nine_tuesday]) as -> by (by injection Hrows).
    apply list_elem_of_singleton in Hb as ->.
    repeat split; unfold Qle; simpl; lia.
Qed.

Lemma query_keeps_prices_in_order_run :
  buscar_dados (Minutes 5) monday tuesday two_days = Ok (rows_labelled 540) ∧
  Forall well_formed (rows_labelled 540).
Proof.
  split; [exact two_days_answer_5|]. apply Forall_forall.
  exact (query_keeps_prices_in_order 5 monday tuesday two_days _
           two_days_answer_5 two_days_prices_in_order).
Defined.

Lemma query_daily_rows_are_days_run :
  buscar_dados (Minutes 1440) monday tuesday two_days
  = Ok (rows_labelled 0) ∧
  ∀ b, in_bin 1440 (midnight monday) b ↔
       date_of_timestamp (Datetime b) = monday.
Proof.
  split; [exact two_days_answer_daily|].
  refine (proj2 (query_daily_rows_are_days monday tuesday two_days
                   (rows_labelled 0)
                   (mkBar (midnight monday) (10#1) (10#1) (10#1) (10#1) 1)
                   two_days_answer_daily _)).
  left.
Defined.

Lemma query_coarser_timeframe_has_fewer_rows_run :
  buscar_dados (Minutes 5) monday tuesday two_days = Ok (rows_labelled 540) ∧
  buscar_dados (Minutes (5 * 6)) monday tuesday two_days
  = Ok (rows_labelled 540) ∧
  (length (rows_labelled 540) ≤ length (rows_labelled 540))%nat.
Proof.
  split; [exact two_days_answer_5|]. split; [exact two_days_answer_30|].
  exact (proj1 (query_coarser_timeframe_has_fewer_rows 5 6 monday tuesday
                  two_days _ _ two_days_answer_5 two_days_answer_30)).
Defined.

Lemma sync_then_query_returns_answers_run :
  saturday - 1 ≤ friday ∧
  buscar_dados (Minutes 1) (data_inicial saturday ∅) friday
    (cache (sincronizar_dados_historicos holiday_monday saturday ∅))
  = Ok (merge_frames
          (holiday_monday <$> filter (λ d, holiday_monday d ≠ [])
             (weekdays_from (data_inicial saturday ∅) saturday))).
Proof.
  assert (saturday - 1 ≤ friday) as Hend by (unfold saturday, friday; lia).
  split; [exact Hend|].
  exact (sync_then_query_returns_answers holiday_monday saturday ∅ friday
           (or_introl eq_refl) Hend).
Defined.

Lemma saturday_merged :
  merge_frames
    (lista_dfs (saturday - 3) saturday
       (cache (sincronizar_dados_historicos holiday_monday saturday ∅)))
  = [mkBar (midnight wednesday + 600) (10#1) (10#1) (10#1) (10#1) 1;
     mkBar (midnight (wednesday + 1) + 600) (10#1) (10#1) (10#1) (10#1) 1;
     mkBar (midnight friday + 600) (10#1) (10#1) (10#1) (10#1) 1].
Proof. vm_compute. reflexivity. Qed.

Lemma main_answers_agree_run :
  (∃ dir1 dados_5m dados_30m dados_1d,
     main holiday_monday saturday ∅
     = Ok (dir1, (dados_5m, dados_30m, dados_1d)) ∧
     total (Volume <$> dados_5m) = total (Volume <$> dados_30m) ∧
     total (Volume <$> dados_30m) = total (Volume <$> dados_1d)) ∧
  raised (sincronizar_dados_historicos holiday_monday saturday broken) = true ∧
  main holiday_monday saturday broken = Raise.
Proof.
  assert (raised (sincronizar_dados_historicos holiday_monday saturday ∅)
          = false) as Hdone by (vm_compute; reflexivity).
  assert (raised (sincronizar_dados_historicos holiday_monday saturday broken)
          = true) as Hr by (vm_compute; reflexivity).
  split; [|split; [exact Hr|]].
  - destruct (main_Ok holiday_monday saturday ∅ Hdone)
      as (dados_5m & dados_30m & dados_1d & Hmain).
    destruct (main_answers_agree holiday_monday saturday ∅) as [_ Hok].
    destruct (Hok _ _ _ _ Hmain) as (_ & _ & _ & _ & Hsame).
    cbv zeta in Hsame. rewrite saturday_merged in Hsame.
    destruct Hsame as [H5 H30].
    { intros b Hb.
      apply elem_of_cons in Hb as [-> | Hb]; [simpl; lia|].
      apply elem_of_cons in Hb as [-> | Hb]; [simpl; lia|].
      apply list_elem_of_singleton in Hb as ->. simpl. lia. }
    { reflexivity. }
    eexists _, dados_5m, dados_30m, dados_1d.
    split; [exact Hmain|]. split; [exact H5|exact H30].
  - destruct (main_answers_agree holiday_monday saturday broken)
      as [Hraise _].
    apply Hraise. exact Hr.
Defined.
